(** * Tuple collectors of the access-control dual writer

    A shallow embedding of [pkg/services/accesscontrol/dualwrite/collectors.go]:
    the three legacy collectors ([teamMembershipCollector],
    [folderTreeCollector], [managedPermissionsCollector]), the key helper
    [tupleStringWithoutCondition] and the mirror collector [zanzanaCollector].

    Go pointers to tuple keys are locations of an explicit heap, so that the
    in-place writes of [tupleStringWithoutCondition] and of the folder merge
    are visible in the model.  Go maps are stdpp [gmap]s. *)

From Stdlib Require Import ZArith.
From stdpp Require Import base gmap strings list fin_maps.

Local Open Scope string_scope.
Local Open Scope list_scope.

(** ** Tuple keys *)

Module openfgav1.

(** Modelled from the spec: the condition attached to a tuple key.  The
    protobuf message is not part of the collectors' file; the spec describes
    it as carrying "a set of resource-group identifiers a grant applies to". *)
Record RelationshipCondition : Type := mkCondition {
  group_resources : gset string
}.

(** [TupleKey] with the fields the collectors read and write.  [Condition]
    is a pointer in Go: [None] is [nil]. *)
Record TupleKey : Type := mkTupleKey {
  User : string;
  Relation : string;
  Object : string;
  Condition : option RelationshipCondition
}.

#[global] Instance RelationshipCondition_eq_dec : EqDecision RelationshipCondition.
Proof. solve_decision. Defined.

#[global] Instance TupleKey_eq_dec : EqDecision TupleKey.
Proof. solve_decision. Defined.

End openfgav1.
Import openfgav1.

(** Field assignments [tuple.Relation = r] and [tuple.Condition = c]. *)
Definition with_Relation (r : string) (t : TupleKey) : TupleKey :=
  {| User := User t; Relation := r; Object := Object t; Condition := Condition t |}.

Definition with_Condition (c : option RelationshipCondition) (t : TupleKey) : TupleKey :=
  {| User := User t; Relation := Relation t; Object := Object t; Condition := c |}.

(** ** Heap of tuple keys and the monad of the collectors *)

(** A pointer to a tuple key is an index into the heap. *)
Abbreviation loc := nat (only parsing).
Abbreviation Heap := (list TupleKey) (only parsing).

(** How a run ends: with a value and a state, with a panic of the Go runtime
    (a dereference of a pointer that holds no tuple key, a write into a nil
    map), or with the loop budget used up in some state. *)
Inductive outcome (St A : Type) : Type :=
| Ret (r : A * St)
| Panic
| OutOfFuel (s : St).
Arguments Ret {St A} r.
Arguments Panic {St A}.
Arguments OutOfFuel {St A} s.

Definition M (St A : Type) : Type := St -> outcome St A.

Definition ret {St A : Type} (a : A) : M St A := fun s => Ret (a, s).

Definition bind {St A B : Type} (c : M St A) (k : A -> M St B) : M St B :=
  fun s =>
    match c s with
    | Ret (a, s') => k a s'
    | Panic => Panic
    | OutOfFuel s' => OutOfFuel s'
    end.

Declare Scope go_scope.
Delimit Scope go_scope with go.
Notation "'let*' x ':=' c1 'in' c2" := (bind c1 (fun x => c2))
  (at level 10, x name, c1 at level 100, c2 at level 200) : go_scope.
Notation "c1 ';;' c2" := (bind c1 (fun _ => c2))
  (at level 100, c2 at level 200, right associativity) : go_scope.
Local Open Scope go_scope.

(** [&openfgav1.TupleKey{...}]: a fresh cell at the end of the heap. *)
Definition alloc (t : TupleKey) : M Heap loc :=
  fun h => Ret (List.length h, h ++ [t]).

(** Reading through a pointer. *)
Definition load (p : loc) : M Heap TupleKey :=
  fun h => match h !! p with Some t => Ret (t, h) | None => Panic end.

(** Writing through a pointer. *)
Definition store (p : loc) (t : TupleKey) : M Heap unit :=
  fun h => match h !! p with Some _ => Ret (tt, <[p := t]> h) | None => Panic end.

Definition set_Relation (p : loc) (r : string) : M Heap unit :=
  let* t := load p in store p (with_Relation r t).

Definition set_Condition (p : loc) (c : option RelationshipCondition) : M Heap unit :=
  let* t := load p in store p (with_Condition c t).

(** Go's [(value, error)] return pair; [None] in the first component is [nil]. *)
Abbreviation error := string (only parsing).
Definition result (A : Type) : Type := (option A * option error)%type.

(** The two-level map from object to key to tuple pointer. *)
Abbreviation TupleMap := (gmap string (gmap string loc)) (only parsing).

(** [if tuples[o] == nil { tuples[o] = make(...) }] *)
Definition ensure_object (o : string) (tuples : TupleMap) : TupleMap :=
  match tuples !! o with
  | None => <[o := ∅]> tuples
  | Some _ => tuples
  end.

(** [tuples[o][k]], as Go's comma-ok lookup. *)
Definition lookup2 (o k : string) (tuples : TupleMap) : option loc :=
  match tuples !! o with
  | Some inner => inner !! k
  | None => None
  end.

(** The map after [tuples[o][k] = p], where [tuples[o]] is a map. *)
Definition put (o k : string) (p : loc) (tuples : TupleMap) : TupleMap :=
  match tuples !! o with
  | Some inner => <[o := <[k := p]> inner]> tuples
  | None => tuples
  end.

(** [tuples[o][k] = p]: the write panics when [tuples[o]] is nil. *)
Definition assign {St : Type} (o k : string) (p : loc) (tuples : TupleMap)
  : M St TupleMap :=
  match tuples !! o with
  | Some _ => ret (put o k p tuples)
  | None => fun _ => Panic
  end.

(** ** The zanzana packages *)

Module zanzana.

(** Modelled from the spec: the type and relation constants of the zanzana
    package, which is not part of the collectors' file.  The spec writes the
    tuples as [team:t1#team-admin@user:u1] and [folder:f2#parent@folder:f1]. *)
Definition TypeUser : string := "user".
Definition TypeTeam : string := "team".
Definition RelationTeamAdmin : string := "team-admin".
Definition RelationTeamMember : string := "team-member".
Definition RelationParent : string := "parent".

(** Modelled from the spec: [NewTupleEntry], missing from the collectors'
    file.  "Subject and object are encoded as type:identifier[#sub-relation]". *)
Definition NewTupleEntry (objectType name relation : string) : string :=
  let obj := objectType +:+ ":" +:+ name in
  if decide (relation = "") then obj else obj +:+ "#" +:+ relation.

(** Modelled from the spec: the union of two optional conditions, "merge the
    new grant's resource-group condition into it". *)
Definition merge_condition (a b : option RelationshipCondition)
  : option RelationshipCondition :=
  match a, b with
  | Some ca, Some cb => Some (mkCondition (group_resources ca ∪ group_resources cb))
  | Some ca, None => Some ca
  | None, _ => b
  end.

(** Modelled from the spec: [MergeFolderResourceTuples], missing from the
    collectors' file.  Folder-scoped resource grants "are combined into a
    single tuple with a unioned condition set"; the first tuple is updated
    in place, the second is only read. *)
Definition MergeFolderResourceTuples (a b : loc) : M Heap unit :=
  let* ta := load a in
  let* tb := load b in
  set_Condition a (merge_condition (Condition ta) (Condition tb)).

End zanzana.

Module common.
(** Modelled from the spec: the folder type constant. *)
Definition TypeFolder : string := "folder".
End common.

(** ** Rows read from the legacy store *)

Module membership.
Record t : Type := mk {
  TeamUID : string;
  UserUID : string;
  Permission : Z
}.
End membership.

Module folder.
Record t : Type := mk {
  OrgID : Z;
  FolderUID : string;
  ParentUID : string
}.
End folder.

Module Permission.
Record t : Type := mk {
  RoleName : string;
  OrgID : Z;
  Action : string;
  Kind : string;
  Identifier : string;
  UserUID : string;
  TeamUID : string
}.
End Permission.

(** The legacy store as the collectors see it: what each of the three queries
    scans into its slice, and the error of the session.  The slice may be
    partly filled when the session fails. *)
Module db.
Record DB : Type := mkDB {
  find_memberships : list membership.t * option error;
  find_folders : list folder.t * option error;
  find_permissions : string -> list Permission.t * option error
}.
End db.

(** ** The mirror's read interface *)

Module authzextv1.

Record ReadRequestTupleKey : Type := mkReadRequestTupleKey {
  Object : string;
  Relation : string
}.

(** Modelled from the spec: the read request and its continuation token.
    A field that a composite literal leaves out holds Go's zero value, the
    empty string. *)
Module ReadRequest.
Record t : Type := mk {
  Namespace : string;
  TupleKey : ReadRequestTupleKey;
  ContinuationToken : string
}.
End ReadRequest.

(** The read response, over the engine's own tuple type. *)
Module ReadResponse.
Record t (Tuple : Type) : Type := mk {
  Tuples : list Tuple;
  ContinuationToken : string
}.
Arguments mk {Tuple} _ _.
Arguments Tuples {Tuple} _.
Arguments ContinuationToken {Tuple} _.
End ReadResponse.

#[global] Instance ReadRequestTupleKey_eq_dec : EqDecision ReadRequestTupleKey.
Proof. solve_decision. Defined.

#[global] Instance ReadRequest_eq_dec : EqDecision ReadRequest.t.
Proof. solve_decision. Defined.

End authzextv1.

(** ** Loops *)

(** [for _, x := range l { acc = body x acc }]; a [continue] is a body that
    returns its accumulator unchanged. *)
Fixpoint range {St A B : Type} (l : list A) (body : A -> B -> M St B) (acc : B)
  : M St B :=
  match l with
  | [] => ret acc
  | x :: l' => let* acc' := body x acc in range l' body acc'
  end.

(** Heap actions inside a run that also threads the state of the client. *)
Definition on_heap {C A : Type} (c : M Heap A) : M (C * Heap) A :=
  fun '(cs, h) =>
    match c h with
    | Ret (a, h') => Ret (a, (cs, h'))
    | Panic => Panic
    | OutOfFuel h' => OutOfFuel (cs, h')
    end.

(** ** The collectors *)

(** What the collectors call and this file does not define:
    - [TupleKey_String], the [String] method of a tuple key: generated
      protobuf code of the OpenFGA library, a function of the fields;
    - [zanzana.TranslateToResourceTuple], its [(tuple, ok)] as an option; the
      tuple it returns is a fresh pointer, allocated by the caller's model;
    - [zanzana.IsFolderResourceTuple], on the tuple key its argument points to;
    - the engine's tuple type [authzextv1.Tuple] and its conversion
      [common.ToOpenFGATuples]; the converted tuples are fresh pointers. *)
Class Externals : Type := {
  TupleKey_String : TupleKey -> string;
  TranslateToResourceTuple : string -> string -> string -> string -> option TupleKey;
  IsFolderResourceTuple : TupleKey -> bool;
  Tuple : Type;
  ToOpenFGATuples : list Tuple -> list TupleKey
}.

(** The interface [zanzana.Client]: a read answers with a response or an
    error and may change the state of the client.  The Go signature also
    admits a nil response with a nil error; [list] reads the continuation
    token of the first response with no nil check, so that answer would
    panic there.  It is left out here: the clients of this development
    follow the convention that a nil error comes with a response. *)
Class Client `{Ext : Externals} : Type := {
  ClientState : Type;
  Read : authzextv1.ReadRequest.t -> ClientState ->
         (authzextv1.ReadResponse.t Tuple + error) * ClientState
}.

Section Collectors.

Context `{Ext : Externals}.

Definition get_Object (p : loc) : M Heap string :=
  let* t := load p in ret (openfgav1.Object t).

Definition get_Condition (p : loc) : M Heap (option RelationshipCondition) :=
  let* t := load p in ret (Condition t).

(** [tuple.String()] *)
Definition String_ (p : loc) : M Heap string :=
  let* t := load p in ret (TupleKey_String t).

Definition is_folder_resource (p : loc) : M Heap bool :=
  let* t := load p in ret (IsFolderResourceTuple t).

Definition tupleStringWithoutCondition (tuple : loc) : M Heap string :=
  let* c := get_Condition tuple in
  set_Condition tuple None ;;
  let* s := String_ tuple in
  set_Condition tuple c ;;
  ret s.

(** *** teamMembershipCollector *)

Definition team_body (m : membership.t) (tuples : TupleMap) : M Heap TupleMap :=
  let* tuple := alloc {|
    User := zanzana.NewTupleEntry zanzana.TypeUser (membership.UserUID m) "";
    Relation := "";
    Object := zanzana.NewTupleEntry zanzana.TypeTeam (membership.TeamUID m) "";
    Condition := None |} in
  (if (membership.Permission m =? 4)%Z
   then set_Relation tuple zanzana.RelationTeamAdmin
   else set_Relation tuple zanzana.RelationTeamMember) ;;
  let* o := get_Object tuple in
  let tuples := ensure_object o tuples in
  let* k := String_ tuple in
  assign o k tuple tuples.

Definition teamMembershipCollector (store : db.DB) : M Heap (result TupleMap) :=
  let '(memberships, err) := db.find_memberships store in
  match err with
  | Some e => ret (None, Some e)
  | None =>
      let* tuples := range memberships team_body ∅ in
      ret (Some tuples, None)
  end.

(** *** folderTreeCollector *)

Definition folder_body (f : folder.t) (tuples : TupleMap) : M Heap TupleMap :=
  if decide (folder.ParentUID f = "") then ret tuples
  else
    let* tuple := alloc {|
      User := zanzana.NewTupleEntry common.TypeFolder (folder.ParentUID f) "";
      Relation := zanzana.RelationParent;
      Object := zanzana.NewTupleEntry common.TypeFolder (folder.FolderUID f) "";
      Condition := None |} in
    let* o := get_Object tuple in
    let tuples := ensure_object o tuples in
    let* k := String_ tuple in
    assign o k tuple tuples.

Definition folderTreeCollector (store : db.DB) : M Heap (result TupleMap) :=
  let '(folders, err) := db.find_folders store in
  match err with
  | Some e => ret (None, Some e)
  | None =>
      let* tuples := range folders folder_body ∅ in
      ret (Some tuples, None)
  end.

(** *** managedPermissionsCollector *)

(** The subject of a row, [None] where the loop continues. *)
Definition subject_of (p : Permission.t) : option string :=
  if (0 <? String.length (Permission.UserUID p))%nat then
    Some (zanzana.NewTupleEntry zanzana.TypeUser (Permission.UserUID p) "")
  else if (0 <? String.length (Permission.TeamUID p))%nat then
    Some (zanzana.NewTupleEntry zanzana.TypeTeam (Permission.TeamUID p) "member")
  else None.

Definition managed_body (p : Permission.t) (tuples : TupleMap) : M Heap TupleMap :=
  match subject_of p with
  | None => ret tuples
  | Some subject =>
      match TranslateToResourceTuple subject (Permission.Action p)
              (Permission.Kind p) (Permission.Identifier p) with
      | None => ret tuples
      | Some translated =>
          let* tuple := alloc translated in
          let* o := get_Object tuple in
          let tuples := ensure_object o tuples in
          let* folder_resource := is_folder_resource tuple in
          if folder_resource then
            let* key := tupleStringWithoutCondition tuple in
            match lookup2 o key tuples with
            | Some t => zanzana.MergeFolderResourceTuples t tuple ;; ret tuples
            | None => assign o key tuple tuples
            end
          else
            let* k := String_ tuple in
            assign o k tuple tuples
      end
  end.

Definition managedPermissionsCollector (store : db.DB) (kind : string)
  : M Heap (result TupleMap) :=
  let '(permissions, err) := db.find_permissions store kind in
  match err with
  | Some e => ret (None, Some e)
  | None =>
      let* tuples := range permissions managed_body ∅ in
      ret (Some tuples, None)
  end.

(** *** zanzanaCollector *)

Context `{Cl : !Client}.

Definition client_Read (req : authzextv1.ReadRequest.t)
  : M (ClientState * Heap) (authzextv1.ReadResponse.t Tuple + error) :=
  fun '(cs, h) => let '(r, cs') := Read req cs in Ret (r, (cs', h)).

(** The request literal, the same at both call sites of [list]. *)
Definition read_request (namespace object relation : string) : authzextv1.ReadRequest.t :=
  {| authzextv1.ReadRequest.Namespace := namespace;
     authzextv1.ReadRequest.TupleKey :=
       {| authzextv1.Object := object; authzextv1.Relation := relation |};
     authzextv1.ReadRequest.ContinuationToken := "" |}.

(** [for c != "" { ... }] with a budget of iterations. *)
Fixpoint list_loop (fuel : nat) (namespace object relation : string)
    (c : string) (first_Tuples : list Tuple)
  : M (ClientState * Heap) (list Tuple + error) :=
  if decide (c = "") then ret (inl first_Tuples)
  else
    match fuel with
    | O => fun s => OutOfFuel s
    | S fuel' =>
        let* r := client_Read (read_request namespace object relation) in
        match r with
        | inr err => ret (inr err)
        | inl res =>
            list_loop fuel' namespace object relation
              (authzextv1.ReadResponse.ContinuationToken res)
              (first_Tuples ++ authzextv1.ReadResponse.Tuples res)
        end
    end.

Definition allocs (ts : list TupleKey) : M Heap (list loc) :=
  range ts (fun t ps => let* p := alloc t in ret (ps ++ [p])) [].

(** The closure [list] of [zanzanaCollector]. *)
Definition list_ (fuel : nat) (namespace object relation : string)
  : M (ClientState * Heap) (list loc + error) :=
  let* r := client_Read (read_request namespace object relation) in
  match r with
  | inr err => ret (inr err)
  | inl first =>
      let* r := list_loop fuel namespace object relation
                  (authzextv1.ReadResponse.ContinuationToken first)
                  (authzextv1.ReadResponse.Tuples first) in
      match r with
      | inr err => ret (inr err)
      | inl tuples =>
          let* ps := on_heap (allocs (ToOpenFGATuples tuples)) in
          ret (inl ps)
      end
  end.

(** The inner loop body: [t.Key] is the pointer [t]. *)
Definition out_body (t : loc) (out : gmap string loc) : M Heap (gmap string loc) :=
  let* folder_resource := is_folder_resource t in
  if folder_resource then
    let* k := tupleStringWithoutCondition t in
    ret (<[k := t]> out)
  else
    let* k := String_ t in
    ret (<[k := t]> out).

(** The outer loop over the relations, which may return from inside. *)
Fixpoint relations_loop (fuel : nat) (object namespace : string)
    (relations : list string) (out : gmap string loc)
  : M (ClientState * Heap) (result (gmap string loc)) :=
  match relations with
  | [] => ret (Some out, None)
  | r :: relations' =>
      let* res := list_ fuel namespace object r in
      match res with
      | inr err => ret (None, Some err)
      | inl tuples =>
          let* out' := on_heap (range tuples out_body out) in
          relations_loop fuel object namespace relations' out'
      end
  end.

Definition zanzanaCollector (fuel : nat) (relations : list string)
    (object namespace : string)
  : M (ClientState * Heap) (result (gmap string loc)) :=
  relations_loop fuel object namespace relations ∅.

End Collectors.

(** ** Vocabulary of the statements *)

Section LastWrite.

Context {K Mp : Type}.
Variable key : TupleKey -> K.
Variable ins : TupleKey -> loc -> Mp -> Mp.

(** Filing the tuples [ts], held at [base], [base + 1], ..., in this order. *)
Fixpoint file_all (base : nat) (ts : list TupleKey) (m : Mp) : Mp :=
  match ts with
  | [] => m
  | t :: ts' => file_all (S base) ts' (ins t base m)
  end.

(** No tuple of [ts] has key [k]. *)
Definition absent (ts : list TupleKey) (k : K) : Prop :=
  forall j t', ts !! j = Some t' -> key t' <> k.

(** [p] is where the last tuple of [ts] with key [k] is held. *)
Definition last_with_key (base : nat) (ts : list TupleKey) (k : K) (p : loc) : Prop :=
  exists i t,
    p = base + i /\ ts !! i = Some t /\ key t = k /\
    forall j t', i < j -> ts !! j = Some t' -> key t' <> k.

End LastWrite.

(** [p] is where the first tuple of [ts] with key [k] is held. *)
Definition first_with_key {K : Type} (key : TupleKey -> K)
    (base : nat) (ts : list TupleKey) (k : K) (p : loc) : Prop :=
  exists i t,
    p = base + i /\ ts !! i = Some t /\ key t = k /\
    forall j t', j < i -> ts !! j = Some t' -> key t' <> k.

(** The legacy collectors file a tuple under its object and its string. *)
Definition key2 `{Ext : Externals} (t : TupleKey) : string * string :=
  (openfgav1.Object t, TupleKey_String t).

Definition file2 `{Ext : Externals} (t : TupleKey) (p : loc) (tuples : TupleMap) : TupleMap :=
  put (openfgav1.Object t) (TupleKey_String t) p (ensure_object (openfgav1.Object t) tuples).

(** The tuple key a membership row is turned into, once its relation is set. *)
Definition membership_tuple (m : membership.t) : TupleKey := {|
  User := zanzana.NewTupleEntry zanzana.TypeUser (membership.UserUID m) "";
  Relation := if (membership.Permission m =? 4)%Z
              then zanzana.RelationTeamAdmin else zanzana.RelationTeamMember;
  Object := zanzana.NewTupleEntry zanzana.TypeTeam (membership.TeamUID m) "";
  Condition := None |}.

(** The tuple key of a folder row that has a parent. *)
Definition folder_tuple (f : folder.t) : TupleKey := {|
  User := zanzana.NewTupleEntry common.TypeFolder (folder.ParentUID f) "";
  Relation := zanzana.RelationParent;
  Object := zanzana.NewTupleEntry common.TypeFolder (folder.FolderUID f) "";
  Condition := None |}.

(** What a managed-permission row translates to, if anything. *)
Definition translated `{Ext : Externals} (p : Permission.t) : option TupleKey :=
  match subject_of p with
  | Some subject =>
      TranslateToResourceTuple subject (Permission.Action p) (Permission.Kind p)
        (Permission.Identifier p)
  | None => None
  end.

(** Every pointer of the map is allocated. *)
Definition allocated (tuples : TupleMap) (h : Heap) : Prop :=
  forall o k q, lookup2 o k tuples = Some q -> q < List.length h.

(** The key of a folder-resource tuple in the managed permissions: its
    object and its string without the condition. *)
Definition stripped_key2 `{Ext : Externals} (t : TupleKey) : string * string :=
  (openfgav1.Object t, TupleKey_String (with_Condition None t)).

(** What a folder-resource row does to the map: nothing beyond the map of
    its object when its key is taken, a new entry otherwise. *)
Definition file_first2 `{Ext : Externals} (t : TupleKey) (p : loc) (tuples : TupleMap)
  : TupleMap :=
  match lookup2 (openfgav1.Object t) (TupleKey_String (with_Condition None t)) tuples with
  | Some _ => ensure_object (openfgav1.Object t) tuples
  | None =>
      put (openfgav1.Object t) (TupleKey_String (with_Condition None t)) p
        (ensure_object (openfgav1.Object t) tuples)
  end.

(** A folder-resource tuple that the managed permissions file, or merge,
    under the key [K]. *)
Definition merges_under `{Ext : Externals} (K : string * string) (t : TupleKey) : Prop :=
  IsFolderResourceTuple t = true /\ stripped_key2 t = K.

#[global] Instance merges_under_dec `{Ext : Externals} K t : Decision (merges_under K t).
Proof. unfold merges_under. apply _. Defined.

(** The tuple [m0] after the conditions of [ms] were merged into it, in order. *)
Definition merged (m0 : TupleKey) (ms : list TupleKey) : TupleKey :=
  with_Condition (foldl zanzana.merge_condition (Condition m0) (Condition <$> ms)) m0.

(** The pointer [q] has no entry but, at most, the one under [K]. *)
Definition only_under (K : string * string) (q : loc) (tuples : TupleMap) : Prop :=
  forall o k, lookup2 o k tuples = Some q -> (o, k) = K.

(** The pointer [q] has no entry. *)
Definition unfiled (q : loc) (tuples : TupleMap) : Prop :=
  forall o k, lookup2 o k tuples <> Some q.

(** The pointers of the map are allocated, and the pointer filed under [K]
    is filed nowhere else. *)
Definition key_kept (K : string * string) (tuples : TupleMap) (h : Heap) : Prop :=
  allocated tuples h /\
  forall q, lookup2 K.1 K.2 tuples = Some q -> only_under K q tuples.

(** The resource groups of an optional condition. *)
Definition groups_of (c : option RelationshipCondition) : gset string :=
  match c with
  | Some c => group_resources c
  | None => ∅
  end.

(** Every entry of the map points to a tuple whose object and string without
    condition are the keys of the entry. *)
Definition keyed_stripped `{Ext : Externals} (tuples : TupleMap) (h : Heap) : Prop :=
  forall o k q, lookup2 o k tuples = Some q ->
    exists t, h !! q = Some t /\ stripped_key2 t = (o, k).

(** The map holds only pointers into the cells added to the heap [h0], each
    at a tuple of the object it is filed under, and no object without entry. *)
Definition filed_by_run (h0 : Heap) (tuples : TupleMap) (h : Heap) : Prop :=
  (forall o k q, lookup2 o k tuples = Some q ->
     List.length h0 <= q < List.length h /\
     exists t, h !! q = Some t /\ openfgav1.Object t = o) /\
  (forall o inner, tuples !! o = Some inner -> inner <> ∅).

(** The mirror collector files a folder-resource tuple under its string
    without the condition, and any other tuple under its string. *)
Definition canonical_key `{Ext : Externals} (t : TupleKey) : string :=
  if IsFolderResourceTuple t then TupleKey_String (with_Condition None t)
  else TupleKey_String t.

(** A client that keeps the log of its reads: each request with its answer. *)
Definition logged `{Ext : Externals} (C : Client) : Client := {|
  ClientState :=
    (@ClientState _ C *
     list (authzextv1.ReadRequest.t * (authzextv1.ReadResponse.t Tuple + error)))%type;
  Read req st :=
    let '(r, cs') := @Read _ C req (fst st) in (r, (cs', snd st ++ [(req, r)]))
|}.

(** An outcome of a run against the logging client, without the log. *)
Definition forget_log {C L A : Type} (o : outcome ((C * L) * Heap) A)
  : outcome (C * Heap) A :=
  match o with
  | Ret (a, ((cs, _), h)) => Ret (a, (cs, h))
  | Panic => Panic
  | OutOfFuel ((cs, _), h) => OutOfFuel (cs, h)
  end.

(** The contract of the read interface: from state [cs], repeated reads of
    [req] answer with the pages [pages], the last of which, and no page
    before it, carries the empty continuation token; the client ends in [cs']. *)
Inductive reads_until_empty `{Ext : Externals} `{Cl : !Client} (req : authzextv1.ReadRequest.t)
  : ClientState -> list (list Tuple) -> ClientState -> Prop :=
| reads_last cs res cs' :
    Read req cs = (inl res, cs') ->
    authzextv1.ReadResponse.ContinuationToken res = "" ->
    reads_until_empty req cs [authzextv1.ReadResponse.Tuples res] cs'
| reads_more cs res cs1 pages cs' :
    Read req cs = (inl res, cs1) ->
    authzextv1.ReadResponse.ContinuationToken res <> "" ->
    reads_until_empty req cs1 pages cs' ->
    reads_until_empty req cs (authzextv1.ReadResponse.Tuples res :: pages) cs'.

(** A stretch of the log in which no request carries a continuation token
    and every answer is a response. *)
Definition clean `{Ext : Externals}
    (l : list (authzextv1.ReadRequest.t * (authzextv1.ReadResponse.t Tuple + error)))
  : Prop :=
  forall req r, (req, r) ∈ l ->
    authzextv1.ReadRequest.ContinuationToken req = "" /\ exists res, r = inl res.

(** A stretch of the log that is clean up to its last read, which answers
    with the error [e]. *)
Definition failed `{Ext : Externals} (e : error)
    (l : list (authzextv1.ReadRequest.t * (authzextv1.ReadResponse.t Tuple + error)))
  : Prop :=
  exists l0 req,
    l = l0 ++ [(req, inr e)] /\ clean l0 /\
    authzextv1.ReadRequest.ContinuationToken req = "".

(** The tuples the mirror collector converts, relation after relation. *)
Definition converted `{Ext : Externals} (pagess : list (list (list Tuple))) : list TupleKey :=
  concat ((fun pages => ToOpenFGATuples (concat pages)) <$> pagess).

(** The reads of the mirror collector, relation after relation: [pagess]
    holds, for each relation, the pages read for it. *)
Inductive relations_read `{Ext : Externals} `{Cl : !Client} (namespace object : string)
  : list string -> ClientState -> list (list (list Tuple)) -> ClientState -> Prop :=
| relations_read_nil cs : relations_read namespace object [] cs [] cs
| relations_read_cons r rs cs pages cs1 pagess cs' :
    reads_until_empty (read_request namespace object r) cs pages cs1 ->
    relations_read namespace object rs cs1 pagess cs' ->
    relations_read namespace object (r :: rs) cs (pages :: pagess) cs'.

(** Repeated reads of [req] from state [cs] answer with pages that carry a
    non-empty continuation token and then, at read number [n], with the error
    [e]; the client ends in [cs']. *)
Inductive reads_until_error `{Ext : Externals} `{Cl : !Client}
    (req : authzextv1.ReadRequest.t)
  : ClientState -> nat -> error -> ClientState -> Prop :=
| reads_error_now cs e cs' :
    Read req cs = (inr e, cs') ->
    reads_until_error req cs 1 e cs'
| reads_error_later cs res cs1 n e cs' :
    Read req cs = (inl res, cs1) ->
    authzextv1.ReadResponse.ContinuationToken res <> "" ->
    reads_until_error req cs1 n e cs' ->
    reads_until_error req cs (S n) e cs'.

(** How the mirror collector files a tuple in its flat map. *)
Definition file1 `{Ext : Externals} (t : TupleKey) (p : loc) (out : gmap string loc)
  : gmap string loc :=
  <[canonical_key t := p]> out.

(** ** A concrete environment, for running the model *)

Module sample.

(** The string form the spec gives: [object#relation@subject[,condition]]. *)
Definition tuple_string (t : TupleKey) : string :=
  openfgav1.Object t +:+ "#" +:+ Relation t +:+ "@" +:+ User t +:+
  match Condition t with
  | None => ""
  | Some c => "," +:+ String.concat ";" (elements (group_resources c))
  end.

Definition translate (subject action kind identifier : string) : option TupleKey :=
  if decide (action = "dashboards:read") then
    Some {| User := subject; Relation := "resource_view";
            Object := "folder:" +:+ identifier;
            Condition := Some (mkCondition {["dashboards"]}) |}
  else if decide (action = "alert.rules:read") then
    Some {| User := subject; Relation := "resource_view";
            Object := "folder:" +:+ identifier;
            Condition := Some (mkCondition {["rules"]}) |}
  else if decide (action = "folders:read") then
    Some {| User := subject; Relation := "view";
            Object := "folder:" +:+ identifier;
            Condition := None |}
  else None.

Definition is_folder_resource (t : TupleKey) : bool :=
  String.prefix "folder:" (openfgav1.Object t) && String.prefix "resource_" (Relation t).

Definition externals : Externals := {|
  TupleKey_String := tuple_string;
  TranslateToResourceTuple := translate;
  IsFolderResourceTuple := is_folder_resource;
  Tuple := TupleKey;
  ToOpenFGATuples := fun ts => ts
|}.

(** A fake client that answers from a script, whatever the request, and
    with an empty last page once the script is used up. *)
Definition scripted_Read (req : authzextv1.ReadRequest.t)
    (script : list (authzextv1.ReadResponse.t TupleKey + error))
  : (authzextv1.ReadResponse.t (@Tuple externals) + error) *
    list (authzextv1.ReadResponse.t TupleKey + error) :=
  match script with
  | r :: script' => (r, script')
  | [] => (inl (authzextv1.ReadResponse.mk [] ""), [])
  end.

Definition scripted : @Client externals := {|
  ClientState := list (authzextv1.ReadResponse.t TupleKey + error);
  Read := scripted_Read
|}.

(** A client that never changes: the same empty page, with a non-empty
    token for every request that carries no token. *)
Definition stubborn_Read (req : authzextv1.ReadRequest.t) (cs : unit)
  : (authzextv1.ReadResponse.t (@Tuple externals) + error) * unit :=
  (inl (authzextv1.ReadResponse.mk []
          (if decide (authzextv1.ReadRequest.ContinuationToken req = "")
           then "next" else "")), tt).

Definition stubborn : @Client externals := {|
  ClientState := unit;
  Read := stubborn_Read
|}.

(** Two grants of the same relation on folder [f1] to user [u1], for two
    resource groups. *)
Definition view_f1_dashboards : TupleKey := {|
  User := "user:u1"; Relation := "resource_view"; Object := "folder:f1";
  Condition := Some (mkCondition {["dashboards"]}) |}.

Definition view_f1_rules : TupleKey := {|
  User := "user:u1"; Relation := "resource_view"; Object := "folder:f1";
  Condition := Some (mkCondition {["rules"]}) |}.

Definition request_view_f1 : authzextv1.ReadRequest.t :=
  read_request "default" "folder:f1" "resource_view".

Definition page_1 : authzextv1.ReadResponse.t (@Tuple externals) + error :=
  inl (authzextv1.ReadResponse.mk [view_f1_dashboards] "page-2").

Definition page_2 : authzextv1.ReadResponse.t (@Tuple externals) + error :=
  inl (authzextv1.ReadResponse.mk [view_f1_rules] "").

(** Managed-permission rows: two for user [u1] on folder [f1], one bound to
    an organization role only, one with an action that does not translate. *)
Definition row_dashboards : Permission.t :=
  Permission.mk "managed:users:1:permissions" 1 "dashboards:read" "folders" "f1" "u1" "".

Definition row_rules : Permission.t :=
  Permission.mk "managed:users:1:permissions" 1 "alert.rules:read" "folders" "f1" "u1" "".

Definition row_org_role : Permission.t :=
  Permission.mk "managed:builtins:editor:permissions" 1 "folders:read" "folders" "f1" "" "".

Definition row_unsupported : Permission.t :=
  Permission.mk "managed:teams:1:permissions" 1 "folders:teleport" "folders" "f1" "" "t1".

Definition store (permissions : list Permission.t) : db.DB := {|
  db.find_memberships := ([membership.mk "t1" "u1" 4; membership.mk "t1" "u2" 0], None);
  db.find_folders := ([folder.mk 1 "f1" ""; folder.mk 1 "f2" "f1"], None);
  db.find_permissions := fun _ => (permissions, None)
|}.

(** A grant on the folder itself, which is no folder-resource tuple. *)
Definition row_folder_read : Permission.t :=
  Permission.mk "managed:users:1:permissions" 1 "folders:read" "folders" "f1" "u1" "".

(** A row of a role bound to user [u1] and to team [t1]. *)
Definition row_user_and_team : Permission.t :=
  Permission.mk "managed:users:1:permissions" 1 "alert.rules:read" "folders" "f1" "u1" "t1".

Definition broken_store : db.DB := {|
  db.find_memberships := ([membership.mk "t1" "u1" 4], Some "connection refused");
  db.find_folders := ([], Some "connection refused");
  db.find_permissions := fun _ => ([row_dashboards], Some "connection refused")
|}.

End sample.

(** ** Last write wins *)

Section LastWriteFacts.

Context {K Mp : Type} `{EqDecision K}.
Variable key : TupleKey -> K.
Variable ins : TupleKey -> loc -> Mp -> Mp.
Variable get : K -> Mp -> option loc.

Hypothesis get_ins : forall k t p m,
  get k (ins t p m) = if decide (k = key t) then Some p else get k m.

Lemma absent_cons t ts k : absent key (t :: ts) k <-> key t <> k /\ absent key ts k.
Proof.
  unfold absent. split.
  - intros Hall. split; [exact (Hall 0 t eq_refl)|].
    intros j t' Hj. exact (Hall (S j) t' Hj).
  - intros [Ht Hall] [|j] t' Hj; simpl in Hj; [by simplify_eq|by eapply Hall].
Qed.

Lemma last_with_key_cons base t ts k p :
  last_with_key key base (t :: ts) k p <->
  last_with_key key (S base) ts k p \/ (p = base /\ key t = k /\ absent key ts k).
Proof.
  unfold last_with_key. split.
  - intros (i & t0 & -> & Hi & Hk & Hlast). destruct i as [|i]; simpl in Hi.
    + right. simplify_eq. split; [lia|]. split; [done|].
      intros j t' Hj. apply (Hlast (S j) t'); [lia|done].
    + left. exists i, t0. split; [lia|]. split; [done|]. split; [done|].
      intros j t' Hlt Hj. apply (Hlast (S j) t'); [lia|done].
  - intros [(i & t0 & -> & Hi & Hk & Hlast)|(-> & Hk & Habs)].
    + exists (S i), t0. split; [lia|]. split; [done|]. split; [done|].
      intros [|j] t' Hlt Hj; [lia|]. apply (Hlast j t'); [lia|done].
    + exists 0, t. split; [lia|]. split; [done|]. split; [done|].
      intros [|j] t' Hlt Hj; [lia|]. by eapply Habs.
Qed.

Lemma get_file_all ts : forall base m k p,
  get k (file_all ins base ts m) = Some p <->
  last_with_key key base ts k p \/ (get k m = Some p /\ absent key ts k).
Proof.
  induction ts as [|t ts IH]; intros base m k p; simpl.
  - split.
    + intros Hm. right. split; [done|]. by intros j t' Hj.
    + intros [(i & t0 & _ & Hi & _)|[Hm _]]; [done|done].
  - rewrite IH, last_with_key_cons, absent_cons, get_ins.
    destruct (decide (k = key t)) as [->|Hne].
    + split.
      * intros [Hl|[Hp Habs]]; [by left; left|]. simplify_eq. left. by right.
      * intros [[Hl|(-> & _ & Habs)]|[_ [Hk _]]]; [by left|by right|done].
    + split.
      * intros [Hl|[Hm Habs]]; [by left; left|]. right. split; [done|]. split; [congruence|done].
      * intros [[Hl|(_ & Hk & _)]|[Hm [_ Habs]]]; [by left|congruence|by right].
Qed.

(** Every tuple of [ts] has a last tuple with its key. *)
Lemma last_with_key_exists ts : forall base i t,
  ts !! i = Some t ->
  exists j t', i <= j /\ ts !! j = Some t' /\ key t' = key t /\
               last_with_key key base ts (key t) (base + j).
Proof.
  induction ts as [|t0 ts IH]; intros base i t Hi; [done|].
  assert (Hlater : forall k, (exists j t', ts !! j = Some t' /\ key t' = k) \/ absent key ts k).
  { intros k. destruct (decide (Exists (fun t' => key t' = k) ts)) as [Hex|Hno].
    - left. apply Exists_exists in Hex as (t' & Hin & Hk).
      apply list_elem_of_lookup in Hin as [j Hj]. by exists j, t'.
    - right. intros j t' Hj Hk. apply Hno, Exists_exists. exists t'.
      split; [|done]. apply list_elem_of_lookup. by exists j. }
  destruct i as [|i]; simpl in Hi.
  - simplify_eq. destruct (Hlater (key t)) as [(j & t' & Hj & Hk)|Habs].
    + destruct (IH (S base) j t' Hj) as (j' & t'' & Hle & Hj' & Hk' & Hlast).
      exists (S j'), t''. split; [lia|]. split; [done|]. split; [congruence|].
      apply last_with_key_cons. left. rewrite <- Hk, <- Nat.add_succ_comm. done.
    + exists 0, t. split; [lia|]. split; [done|]. split; [done|].
      apply last_with_key_cons. right. split; [lia|]. by split.
  - destruct (IH (S base) i t Hi) as (j' & t'' & Hle & Hj' & Hk' & Hlast).
    exists (S j'), t''. split; [lia|]. split; [done|]. split; [done|].
    apply last_with_key_cons. left. by rewrite <- Nat.add_succ_comm.
Qed.

End LastWriteFacts.

(** ** First write wins *)

Section FirstWriteFacts.

Context {K Mp : Type} `{EqDecision K}.
Variable key : TupleKey -> K.
Variable ins : TupleKey -> loc -> Mp -> Mp.
Variable get : K -> Mp -> option loc.

Hypothesis get_ins_first : forall k t p m,
  get k (ins t p m)
  = match get k m with
    | Some q => Some q
    | None => if decide (k = key t) then Some p else None
    end.

Lemma first_with_key_cons base t ts k p :
  first_with_key key base (t :: ts) k p <->
  (key t = k /\ p = base) \/ (key t <> k /\ first_with_key key (S base) ts k p).
Proof.
  unfold first_with_key. split.
  - intros (i & t0 & -> & Hi & Hk & Hfirst). destruct i as [|i]; simpl in Hi.
    + left. simplify_eq. split; [done|lia].
    + right. split; [apply (Hfirst 0 t); [lia|done]|].
      exists i, t0. split; [lia|]. split; [done|]. split; [done|].
      intros j t' Hlt Hj. apply (Hfirst (S j) t'); [lia|done].
  - intros [[Hk ->]|(Hk & i & t0 & -> & Hi & Hk0 & Hfirst)].
    + exists 0, t. split; [lia|]. split; [done|]. split; [done|]. intros j t' Hlt. lia.
    + exists (S i), t0. split; [lia|]. split; [done|]. split; [done|].
      intros [|j] t' Hlt Hj; simpl in Hj; [by simplify_eq|].
      apply (Hfirst j t'); [lia|done].
Qed.

Lemma get_file_all_first ts : forall base m k p,
  get k (file_all ins base ts m) = Some p <->
  get k m = Some p \/ (get k m = None /\ first_with_key key base ts k p).
Proof.
  induction ts as [|t ts IH]; intros base m k p; simpl.
  - split; [by left|]. intros [Hm|[_ (i & t0 & _ & Hi & _)]]; done.
  - rewrite IH, get_ins_first, first_with_key_cons.
    destruct (get k m) as [q|] eqn:Hm.
    + split; (intros [Hq|[Hq _]]; [by left|done]).
    + destruct (decide (k = key t)) as [->|Hne].
      * split.
        -- intros [[= <-]|[Hq _]]; [|done]. right. split; [done|]. by left.
        -- intros [Hq|[_ [[_ ->]|[Hk _]]]]; [done|by left|done].
      * split.
        -- intros [Hq|[_ Hf]]; [done|]. right. split; [done|]. right.
           split; [congruence|done].
        -- intros [Hq|[_ [[Hk _]|[_ Hf]]]]; [done|congruence|by right].
Qed.

End FirstWriteFacts.

Section CollectorProofs.

Context `{Ext : Externals}.

(** ** Running the model: the heap operations *)

Lemma bind_run {St A B : Type} (c : M St A) (k : A -> M St B) s a s' :
  c s = Ret (a, s') -> bind c k s = k a s'.
Proof. intros Hc. unfold bind. by rewrite Hc. Qed.

Lemma lookup_fresh (h : Heap) (t : TupleKey) : (h ++ [t]) !! List.length h = Some t.
Proof. by rewrite list_lookup_middle. Qed.

Lemma load_run (h : Heap) p t : h !! p = Some t -> load p h = Ret (t, h).
Proof. intros Hp. unfold load. by rewrite Hp. Qed.

Lemma store_run (h : Heap) p t0 t :
  h !! p = Some t0 -> store p t h = Ret (tt, <[p := t]> h).
Proof. intros Hp. unfold store. by rewrite Hp. Qed.

Lemma set_Condition_run (h : Heap) p t c :
  h !! p = Some t -> set_Condition p c h = Ret (tt, <[p := with_Condition c t]> h).
Proof.
  intros Hp. unfold set_Condition.
  rewrite (bind_run _ _ _ _ _ (load_run _ _ _ Hp)).
  by apply store_run with t.
Qed.

Lemma set_Relation_run (h : Heap) p t r :
  h !! p = Some t -> set_Relation p r h = Ret (tt, <[p := with_Relation r t]> h).
Proof.
  intros Hp. unfold set_Relation.
  rewrite (bind_run _ _ _ _ _ (load_run _ _ _ Hp)).
  by apply store_run with t.
Qed.

Lemma get_Object_run (h : Heap) p t :
  h !! p = Some t -> get_Object p h = Ret (openfgav1.Object t, h).
Proof.
  intros Hp. unfold get_Object. by rewrite (bind_run _ _ _ _ _ (load_run _ _ _ Hp)).
Qed.

Lemma get_Condition_run (h : Heap) p t :
  h !! p = Some t -> get_Condition p h = Ret (Condition t, h).
Proof.
  intros Hp. unfold get_Condition. by rewrite (bind_run _ _ _ _ _ (load_run _ _ _ Hp)).
Qed.

Lemma String_run (h : Heap) p t :
  h !! p = Some t -> String_ p h = Ret (TupleKey_String t, h).
Proof.
  intros Hp. unfold String_. by rewrite (bind_run _ _ _ _ _ (load_run _ _ _ Hp)).
Qed.

Lemma is_folder_resource_run (h : Heap) p t :
  h !! p = Some t -> is_folder_resource p h = Ret (IsFolderResourceTuple t, h).
Proof.
  intros Hp. unfold is_folder_resource.
  by rewrite (bind_run _ _ _ _ _ (load_run _ _ _ Hp)).
Qed.

Lemma with_Condition_same (t : TupleKey) : with_Condition (Condition t) t = t.
Proof. by destruct t. Qed.

Lemma with_Condition_twice c c' (t : TupleKey) :
  with_Condition c (with_Condition c' t) = with_Condition c t.
Proof. done. Qed.

(** ** The two-level map *)

Lemma assign_ensure_run {St : Type} o k p (tuples : TupleMap) (s : St) :
  assign o k p (ensure_object o tuples) s = Ret (put o k p (ensure_object o tuples), s).
Proof.
  unfold assign, ensure_object.
  destruct (tuples !! o) as [inner|] eqn:Hin; [by rewrite Hin|].
  by rewrite lookup_insert_eq.
Qed.

Lemma lookup2_empty o k : lookup2 o k ∅ = None.
Proof. unfold lookup2. by rewrite lookup_empty. Qed.

Lemma lookup2_put_ensure o k o' k' q (tuples : TupleMap) :
  lookup2 o k (put o' k' q (ensure_object o' tuples))
  = if decide ((o, k) = (o', k')) then Some q else lookup2 o k tuples.
Proof.
  unfold put, ensure_object, lookup2.
  destruct (tuples !! o') as [inner|] eqn:Hin.
  - rewrite Hin.
    destruct (decide (o = o')) as [->|Ho].
    + rewrite lookup_insert_eq, Hin.
      destruct (decide (k = k')) as [->|Hk].
      * rewrite lookup_insert_eq. by rewrite decide_True.
      * rewrite lookup_insert_ne by done. rewrite decide_False; [done|congruence].
    + rewrite lookup_insert_ne by done. rewrite decide_False; [done|congruence].
  - rewrite lookup_insert_eq.
    destruct (decide (o = o')) as [->|Ho].
    + rewrite lookup_insert_eq, Hin.
      destruct (decide (k = k')) as [->|Hk].
      * rewrite lookup_insert_eq. by rewrite decide_True.
      * rewrite lookup_insert_ne by done. rewrite lookup_empty.
        rewrite decide_False; [done|congruence].
    + rewrite !lookup_insert_ne by done. rewrite decide_False; [done|congruence].
Qed.

Lemma lookup2_file2 o k t p (tuples : TupleMap) :
  lookup2 o k (file2 t p tuples)
  = if decide ((o, k) = key2 t) then Some p else lookup2 o k tuples.
Proof. apply lookup2_put_ensure. Qed.

Lemma lookup2_file_all ts base o k p :
  lookup2 o k (file_all file2 base ts ∅) = Some p
  <-> last_with_key key2 base ts (o, k) p.
Proof.
  pose proof (get_file_all key2 file2 (fun ok m => lookup2 ok.1 ok.2 m)) as Hget.
  assert (Hins : forall (ok : string * string) t q (m : TupleMap),
    lookup2 ok.1 ok.2 (file2 t q m)
    = if decide (ok = key2 t) then Some q else lookup2 ok.1 ok.2 m).
  { intros [o' k'] t q m. apply lookup2_file2. }
  specialize (Hget Hins ts base ∅ (o, k) p). simpl in Hget.
  rewrite Hget, lookup2_empty.
  split; [intros [Hl|[Hm _]]; [done|discriminate]|by left].
Qed.

Lemma insert_fresh (h : Heap) (t t' : TupleKey) :
  <[List.length h := t']> (h ++ [t]) = h ++ [t'].
Proof.
  replace (List.length h) with (List.length h + 0) by lia.
  by rewrite insert_app_r.
Qed.

(** A loop whose body either skips its row or files one fresh tuple. *)
Lemma range_file2 {A : Type} (f : A -> option TupleKey)
    (body : A -> TupleMap -> M Heap TupleMap) :
  (forall x tuples h,
      body x tuples h
      = Ret (match f x with
             | Some t => (file2 t (List.length h) tuples, h ++ [t])
             | None => (tuples, h)
             end)) ->
  forall xs tuples h,
    range xs body tuples h
    = Ret (file_all file2 (List.length h) (omap f xs) tuples, h ++ omap f xs).
Proof.
  intros Hbody xs. induction xs as [|x xs IH]; intros tuples h; simpl.
  - unfold ret. by rewrite app_nil_r.
  - unfold bind. rewrite Hbody. destruct (f x) as [t|]; simpl.
    + rewrite IH, length_app. simpl.
      replace (List.length h + 1) with (S (List.length h)) by lia.
      by rewrite <- app_assoc.
    + apply IH.
Qed.

(** ** teamMembershipCollector *)

Lemma team_body_run m (tuples : TupleMap) (h : Heap) :
  team_body m tuples h
  = Ret (file2 (membership_tuple m) (List.length h) tuples, h ++ [membership_tuple m]).
Proof.
  unfold team_body.
  set (t0 := {| User := _; Relation := ""; Object := _; Condition := None |}).
  rewrite (bind_run (alloc t0) _ h (List.length h) (h ++ [t0])) by done.
  assert (Hset : forall r,
    set_Relation (List.length h) r (h ++ [t0]) = Ret (tt, h ++ [with_Relation r t0])).
  { intros r. rewrite (set_Relation_run _ _ t0) by apply lookup_fresh.
    by rewrite insert_fresh. }
  assert (Hfin : with_Relation
            (if (membership.Permission m =? 4)%Z
             then zanzana.RelationTeamAdmin else zanzana.RelationTeamMember) t0
          = membership_tuple m) by done.
  rewrite (bind_run _ _ _ tt (h ++ [membership_tuple m])).
  2:{ destruct (membership.Permission m =? 4)%Z; rewrite Hset; by rewrite <- Hfin. }
  rewrite (bind_run _ _ _ _ _ (get_Object_run _ _ _ (lookup_fresh h _))).
  rewrite (bind_run _ _ _ _ _ (String_run _ _ _ (lookup_fresh h _))).
  apply assign_ensure_run.
Qed.

(** C6: every membership row gives exactly one tuple key, allocated in the
    order of the rows: its subject is the user, its object is the team, and
    its relation is the team-admin relation exactly when the permission level
    is 4 and the team-member relation at every other level.  Each of these
    tuples is filed under its object and its string, where the last tuple
    with that object and string is the one kept, and nothing else is filed. *)
Theorem teamMembershipCollector_tuples rows fs ps (h : Heap) :
  exists (tuples : TupleMap) (ts : list TupleKey),
    teamMembershipCollector (db.mkDB (rows, None) fs ps) h
    = Ret ((Some tuples, None), h ++ ts) /\
    Forall2 (fun m t =>
      User t = zanzana.NewTupleEntry zanzana.TypeUser (membership.UserUID m) "" /\
      openfgav1.Object t
      = zanzana.NewTupleEntry zanzana.TypeTeam (membership.TeamUID m) "" /\
      Condition t = None /\
      (Relation t = zanzana.RelationTeamAdmin <-> membership.Permission m = 4%Z) /\
      (Relation t = zanzana.RelationTeamMember <-> membership.Permission m <> 4%Z))
      rows ts /\
    forall o k p,
      lookup2 o k tuples = Some p <-> last_with_key key2 (List.length h) ts (o, k) p.
Proof.
  exists (file_all file2 (List.length h) (membership_tuple <$> rows) ∅),
         (membership_tuple <$> rows).
  split; [|split].
  - unfold teamMembershipCollector. simpl.
    pose proof (range_file2 (fun m => Some (membership_tuple m)) team_body
                  team_body_run rows ∅ h) as Hrun.
    assert (Homap : omap (fun m => Some (membership_tuple m)) rows
                    = membership_tuple <$> rows).
    { clear. induction rows as [|m rows IH]; [done|]. simpl. by f_equal. }
    rewrite Homap in Hrun. by rewrite (bind_run _ _ _ _ _ Hrun).
  - apply Forall2_fmap_r, Forall_Forall2_diag, Forall_forall. intros m _.
    unfold membership_tuple; simpl. repeat split; try done.
    + destruct (Z.eqb_spec (membership.Permission m) 4); [done|discriminate].
    + intros ->. done.
    + destruct (Z.eqb_spec (membership.Permission m) 4); [discriminate|done].
    + intros Hne. destruct (Z.eqb_spec (membership.Permission m) 4); [done|done].
  - intros o k p. apply lookup2_file_all.
Qed.

(** ** folderTreeCollector *)

Lemma folder_body_run f (tuples : TupleMap) (h : Heap) :
  folder_body f tuples h
  = Ret (match (if decide (folder.ParentUID f = "") then None else Some (folder_tuple f)) with
         | Some t => (file2 t (List.length h) tuples, h ++ [t])
         | None => (tuples, h)
         end).
Proof.
  unfold folder_body. destruct (decide (folder.ParentUID f = "")) as [Hroot|Hsub]; [done|].
  fold (folder_tuple f).
  rewrite (bind_run (alloc (folder_tuple f)) _ h (List.length h) (h ++ [folder_tuple f]))
    by done.
  rewrite (bind_run _ _ _ _ _ (get_Object_run _ _ _ (lookup_fresh h _))).
  rewrite (bind_run _ _ _ _ _ (String_run _ _ _ (lookup_fresh h _))).
  apply assign_ensure_run.
Qed.

Lemma omap_non_root (rows : list folder.t) :
  omap (fun f => if decide (folder.ParentUID f = "") then None else Some (folder_tuple f)) rows
  = folder_tuple <$> filter (fun f => folder.ParentUID f <> "") rows.
Proof.
  induction rows as [|f rows IH]; [done|]. simpl.
  destruct (decide (folder.ParentUID f = "")) as [Hroot|Hsub].
  - rewrite filter_cons_False by (intros Hn; by apply Hn). exact IH.
  - rewrite filter_cons_True by done. simpl. f_equal. exact IH.
Qed.

(** C7: the tuple keys that [folderTreeCollector] allocates are, in order,
    one for each folder row with a non-empty parent uid and none for a row
    with an empty one; the tuple of a row has the child folder as object, the
    relation "parent" and the parent folder as subject.  These tuples, and
    nothing else, are filed under their object and string. *)
Theorem folderTreeCollector_tuples (rows : list folder.t) ms ps (h : Heap) :
  exists (tuples : TupleMap) (ts : list TupleKey),
    folderTreeCollector (db.mkDB ms (rows, None) ps) h
    = Ret ((Some tuples, None), h ++ ts) /\
    Forall2 (fun f t =>
      t = {| User := zanzana.NewTupleEntry common.TypeFolder (folder.ParentUID f) "";
             Relation := "parent";
             Object := zanzana.NewTupleEntry common.TypeFolder (folder.FolderUID f) "";
             Condition := None |})
      (filter (fun f => folder.ParentUID f <> "") rows) ts /\
    forall o k p,
      lookup2 o k tuples = Some p <-> last_with_key key2 (List.length h) ts (o, k) p.
Proof.
  exists (file_all file2 (List.length h)
            (folder_tuple <$> filter (fun f => folder.ParentUID f <> "") rows) ∅),
         (folder_tuple <$> filter (fun f => folder.ParentUID f <> "") rows).
  split; [|split].
  - unfold folderTreeCollector. simpl.
    pose proof (range_file2 _ folder_body folder_body_run rows ∅ h) as Hrun.
    rewrite omap_non_root in Hrun. by rewrite (bind_run _ _ _ _ _ Hrun).
  - apply Forall2_fmap_r, Forall_Forall2_diag, Forall_forall. by intros f _.
  - intros o k p. apply lookup2_file_all.
Qed.

(** ** managedPermissionsCollector *)

Lemma lookup2_ensure_object o k o' (tuples : TupleMap) :
  lookup2 o k (ensure_object o' tuples) = lookup2 o k tuples.
Proof.
  unfold lookup2, ensure_object.
  destruct (tuples !! o') as [inner|] eqn:Hin; [done|].
  destruct (decide (o = o')) as [->|Hne].
  - by rewrite lookup_insert_eq, Hin, lookup_empty.
  - by rewrite lookup_insert_ne.
Qed.

Lemma tupleStringWithoutCondition_run (h : Heap) (tuple : loc) (t : TupleKey) :
  h !! tuple = Some t ->
  tupleStringWithoutCondition tuple h
  = Ret (TupleKey_String (with_Condition None t), h).
Proof.
  intros Hp. unfold tupleStringWithoutCondition.
  assert (Hlt : tuple < List.length h) by (by eapply lookup_lt_Some).
  rewrite (bind_run _ _ _ _ _ (get_Condition_run _ _ _ Hp)).
  rewrite (bind_run _ _ _ _ _ (set_Condition_run _ _ _ None Hp)).
  set (h1 := <[tuple := with_Condition None t]> h).
  assert (Hp1 : h1 !! tuple = Some (with_Condition None t))
    by (by apply list_lookup_insert_eq).
  rewrite (bind_run _ _ _ _ _ (String_run _ _ _ Hp1)).
  rewrite (bind_run _ _ _ _ _ (set_Condition_run _ _ _ (Condition t) Hp1)).
  unfold ret, h1.
  rewrite list_insert_insert_eq, with_Condition_twice, with_Condition_same.
  by rewrite list_insert_id.
Qed.

Lemma MergeFolderResourceTuples_run (h : Heap) q tq t :
  h !! q = Some tq ->
  zanzana.MergeFolderResourceTuples q (List.length h) (h ++ [t])
  = Ret (tt, <[q := with_Condition
                      (zanzana.merge_condition (Condition tq) (Condition t)) tq]> h
             ++ [t]).
Proof.
  intros Hq. unfold zanzana.MergeFolderResourceTuples.
  assert (Hq' : (h ++ [t]) !! q = Some tq) by (by apply lookup_app_l_Some).
  rewrite (bind_run _ _ _ _ _ (load_run _ _ _ Hq')).
  rewrite (bind_run _ _ _ _ _ (load_run _ _ _ (lookup_fresh h t))).
  rewrite (set_Condition_run _ _ _ _ Hq').
  rewrite insert_app_l by (by eapply lookup_lt_Some). done.
Qed.

Lemma managed_body_skip p (tuples : TupleMap) (h : Heap) :
  translated p = None -> managed_body p tuples h = Ret (tuples, h).
Proof.
  unfold translated, managed_body. destruct (subject_of p) as [s|]; [|done].
  by intros ->.
Qed.

Lemma managed_body_run p t (tuples : TupleMap) (h : Heap) :
  translated p = Some t ->
  managed_body p tuples h
  = let o := openfgav1.Object t in
    let tuples1 := ensure_object o tuples in
    if IsFolderResourceTuple t then
      let key := TupleKey_String (with_Condition None t) in
      match lookup2 o key tuples with
      | Some q =>
          bind (zanzana.MergeFolderResourceTuples q (List.length h))
               (fun _ => ret tuples1) (h ++ [t])
      | None => Ret (put o key (List.length h) tuples1, h ++ [t])
      end
    else Ret (file2 t (List.length h) tuples, h ++ [t]).
Proof.
  unfold translated, managed_body. destruct (subject_of p) as [s|]; [|done].
  intros ->.
  rewrite (bind_run (alloc t) _ h (List.length h) (h ++ [t])) by done.
  rewrite (bind_run _ _ _ _ _ (get_Object_run _ _ _ (lookup_fresh h _))).
  rewrite (bind_run _ _ _ _ _ (is_folder_resource_run _ _ _ (lookup_fresh h _))).
  cbv zeta. destruct (IsFolderResourceTuple t).
  - rewrite (bind_run _ _ _ _ _ (tupleStringWithoutCondition_run _ _ _ (lookup_fresh h _))).
    rewrite lookup2_ensure_object.
    destruct (lookup2 _ _ tuples); [done|]. apply assign_ensure_run.
  - rewrite (bind_run _ _ _ _ _ (String_run _ _ _ (lookup_fresh h _))).
    apply assign_ensure_run.
Qed.

Lemma nonempty_length (s : string) : (0 <? String.length s)%nat = true <-> s <> "".
Proof. destruct s; simpl; split; (done || by intros []). Qed.

Lemma subject_of_cases p :
  subject_of p
  = if decide (Permission.UserUID p <> "") then
      Some (zanzana.NewTupleEntry zanzana.TypeUser (Permission.UserUID p) "")
    else if decide (Permission.TeamUID p <> "") then
      Some (zanzana.NewTupleEntry zanzana.TypeTeam (Permission.TeamUID p) "member")
    else None.
Proof.
  unfold subject_of.
  destruct (decide (Permission.UserUID p <> "")) as [Hu|Hu].
  - apply nonempty_length in Hu. by rewrite Hu.
  - destruct (0 <? String.length (Permission.UserUID p))%nat eqn:Hlu.
    { apply nonempty_length in Hlu. done. }
    destruct (decide (Permission.TeamUID p <> "")) as [Ht|Ht].
    + apply nonempty_length in Ht. by rewrite Ht.
    + destruct (0 <? String.length (Permission.TeamUID p))%nat eqn:Hlt; [|done].
      apply nonempty_length in Hlt. done.
Qed.

Lemma allocated_empty (h : Heap) : allocated ∅ h.
Proof. intros o k q. by rewrite lookup2_empty. Qed.

(** One row of the managed permissions: the run goes through, the pointers
    of the map stay allocated, and the tuple of a row that translates is held
    in the fresh cell and has an entry under its key. *)
Lemma managed_body_allocated p (tuples : TupleMap) (h : Heap) :
  allocated tuples h ->
  exists (tuples' : TupleMap) (h' : Heap),
    managed_body p tuples h = Ret (tuples', h') /\
    allocated tuples' h' /\
    forall t, translated p = Some t ->
      h' !! List.length h = Some t /\
      is_Some (lookup2 (openfgav1.Object t) (canonical_key t) tuples').
Proof.
  intros Hall. destruct (translated p) as [t|] eqn:Htr.
  2:{ exists tuples, h. split; [by apply managed_body_skip|]. by split. }
  rewrite (managed_body_run p t tuples h Htr). cbv zeta.
  destruct (IsFolderResourceTuple t) eqn:Hf.
  - destruct (lookup2 _ _ tuples) as [q|] eqn:Hq.
    + pose proof (Hall _ _ _ Hq) as Hlt.
      destruct (lookup_lt_is_Some_2 h q Hlt) as [tq Htq].
      rewrite (bind_run _ _ _ _ _ (MergeFolderResourceTuples_run h q tq t Htq)).
      eexists _, _. split; [done|]. split.
      * intros o k q'. rewrite lookup2_ensure_object. intros Hq'.
        apply Hall in Hq'. rewrite length_app, length_insert. lia.
      * intros t' [= <-]. unfold canonical_key. rewrite Hf. split.
        -- rewrite <- (length_insert h q
              (with_Condition (zanzana.merge_condition (Condition tq) (Condition t)) tq)).
           apply lookup_fresh.
        -- rewrite lookup2_ensure_object, Hq. by eexists.
    + eexists _, _. split; [done|]. split.
      * intros o k q'. rewrite lookup2_put_ensure, length_app. simpl.
        case_decide; [intros [= <-]; lia|]. intros Hq'. apply Hall in Hq'. lia.
      * intros t' [= <-]. unfold canonical_key. rewrite Hf.
        split; [apply lookup_fresh|].
        rewrite lookup2_put_ensure, decide_True by done. by eexists.
  - eexists _, _. split; [done|]. split.
    + intros o k q'. rewrite lookup2_file2, length_app. simpl.
      case_decide; [intros [= <-]; lia|]. intros Hq'. apply Hall in Hq'. lia.
    + intros t' [= <-]. unfold canonical_key. rewrite Hf.
      split; [apply lookup_fresh|].
      rewrite lookup2_file2, decide_True by done. by eexists.
Qed.

Lemma range_managed_allocated (rows : list Permission.t) :
  forall (tuples : TupleMap) (h : Heap),
    allocated tuples h ->
    exists (tuples' : TupleMap) (h' : Heap),
      range rows managed_body tuples h = Ret (tuples', h') /\ allocated tuples' h'.
Proof.
  induction rows as [|p rows IH]; intros tuples h Hall; simpl.
  - by exists tuples, h.
  - destruct (managed_body_allocated p tuples h Hall) as (tuples1 & h1 & Hrun & Hall1 & _).
    rewrite (bind_run _ _ _ _ _ Hrun). by apply IH.
Qed.

Lemma range_managed_supported (rows : list Permission.t) :
  forall (tuples : TupleMap) (h : Heap),
    range rows managed_body tuples h
    = range (filter (fun p => is_Some (translated p)) rows) managed_body tuples h.
Proof.
  induction rows as [|p rows IH]; intros tuples h; [done|].
  destruct (translated p) as [t|] eqn:Htr.
  - rewrite filter_cons_True by (by rewrite Htr). simpl. unfold bind.
    destruct (managed_body p tuples h) as [[tuples1 h1]| |]; [apply IH|done|done].
  - rewrite filter_cons_False by (rewrite Htr; by intros [? ?]). simpl.
    rewrite (bind_run _ _ _ _ _ (managed_body_skip p tuples h Htr)). apply IH.
Qed.

(** ** zanzanaCollector *)

Section Mirror.

Context `{Cl : !Client}.

Lemma client_Read_run req cs r cs' (h : Heap) :
  Read req cs = (r, cs') -> client_Read req (cs, h) = Ret (r, (cs', h)).
Proof. intros Hr. unfold client_Read. by rewrite Hr. Qed.

Lemma on_heap_run {C A : Type} (c : M Heap A) (cs : C) (h h' : Heap) a :
  c h = Ret (a, h') -> on_heap c (cs, h) = Ret (a, (cs, h')).
Proof. intros Hc. unfold on_heap. by rewrite Hc. Qed.

Lemma allocs_from (ts : list TupleKey) : forall (ps : list loc) (h : Heap),
  range ts (fun t ps => let* p := alloc t in ret (ps ++ [p])) ps h
  = Ret (ps ++ seq (List.length h) (List.length ts), h ++ ts).
Proof.
  induction ts as [|t ts IH]; intros ps h; simpl.
  - unfold ret. by rewrite !app_nil_r.
  - rewrite (bind_run _ _ h (ps ++ [List.length h]) (h ++ [t])) by done.
    rewrite IH, length_app. simpl.
    replace (List.length h + 1) with (S (List.length h)) by lia.
    by rewrite <- !app_assoc.
Qed.

Lemma allocs_run (ts : list TupleKey) (h : Heap) :
  allocs ts h = Ret (seq (List.length h) (List.length ts), h ++ ts).
Proof. unfold allocs. by rewrite allocs_from. Qed.

Lemma out_body_run (h : Heap) p t (out : gmap string loc) :
  h !! p = Some t -> out_body p out h = Ret (file1 t p out, h).
Proof.
  intros Hp. unfold out_body, file1, canonical_key.
  rewrite (bind_run _ _ _ _ _ (is_folder_resource_run _ _ _ Hp)).
  destruct (IsFolderResourceTuple t).
  - by rewrite (bind_run _ _ _ _ _ (tupleStringWithoutCondition_run _ _ _ Hp)).
  - by rewrite (bind_run _ _ _ _ _ (String_run _ _ _ Hp)).
Qed.

Lemma range_out_body (ts : list TupleKey) : forall base (out : gmap string loc) (h : Heap),
  (forall i t, ts !! i = Some t -> h !! (base + i) = Some t) ->
  range (seq base (List.length ts)) out_body out h
  = Ret (file_all file1 base ts out, h).
Proof.
  induction ts as [|t ts IH]; intros base out h Hts; simpl; [done|].
  assert (Hp : h !! base = Some t).
  { specialize (Hts 0 t eq_refl). by rewrite Nat.add_0_r in Hts. }
  rewrite (bind_run _ _ _ _ _ (out_body_run h base t out Hp)).
  apply IH. intros i t' Hi. specialize (Hts (S i) t' Hi).
  by replace (S base + i) with (base + S i) by lia.
Qed.

Lemma file_all_app {Mp : Type} (ins : TupleKey -> loc -> Mp -> Mp) ts1 ts2 :
  forall base m,
    file_all ins base (ts1 ++ ts2) m
    = file_all ins (base + List.length ts1) ts2 (file_all ins base ts1 m).
Proof.
  induction ts1 as [|t ts1 IH]; intros base m; simpl.
  - by rewrite Nat.add_0_r.
  - rewrite IH. by replace (S base + List.length ts1) with (base + S (List.length ts1)) by lia.
Qed.

Lemma lookup_file1 k t p (out : gmap string loc) :
  file1 t p out !! k = if decide (k = canonical_key t) then Some p else out !! k.
Proof.
  unfold file1. destruct (decide (k = canonical_key t)) as [->|Hne].
  - by rewrite lookup_insert_eq.
  - by rewrite lookup_insert_ne.
Qed.

Lemma lookup_file_all1 ts base k p :
  file_all file1 base ts ∅ !! k = Some p <-> last_with_key canonical_key base ts k p.
Proof.
  pose proof (get_file_all canonical_key file1 (fun k (m : gmap string loc) => m !! k)
                lookup_file1 ts base ∅ k p) as Hget.
  simpl in Hget. rewrite Hget, lookup_empty.
  split; [intros [Hl|[Hm _]]; [done|discriminate]|by left].
Qed.

(** The loop of [list], once the contract gives the pages still to come. *)
Lemma list_loop_run namespace object relation cs pages cs' :
  reads_until_empty (read_request namespace object relation) cs pages cs' ->
  forall fuel c first_Tuples (h : Heap),
    c <> "" ->
    List.length pages <= fuel ->
    list_loop fuel namespace object relation c first_Tuples (cs, h)
    = Ret (inl (first_Tuples ++ concat pages), (cs', h)).
Proof.
  induction 1 as [cs res cs' Hread Htok|cs res cs1 pages cs' Hread Htok Hrest IH];
    intros fuel c first_Tuples h Hc Hfuel.
  - destruct fuel as [|fuel]; [simpl in Hfuel; lia|]. simpl.
    rewrite decide_False by done.
    rewrite (bind_run _ _ _ _ _ (client_Read_run _ _ _ _ h Hread)).
    rewrite Htok. destruct fuel; simpl; by rewrite app_nil_r.
  - destruct fuel as [|fuel]; [simpl in Hfuel; lia|]. simpl.
    rewrite decide_False by done.
    rewrite (bind_run _ _ _ _ _ (client_Read_run _ _ _ _ h Hread)).
    rewrite IH; [|done|simpl in Hfuel; lia].
    by rewrite <- app_assoc.
Qed.

Lemma list_run namespace object relation cs pages cs' :
  reads_until_empty (read_request namespace object relation) cs pages cs' ->
  forall fuel (h : Heap),
    List.length pages <= S fuel ->
    list_ fuel namespace object relation (cs, h)
    = Ret (inl (seq (List.length h) (List.length (ToOpenFGATuples (concat pages)))),
           (cs', h ++ ToOpenFGATuples (concat pages))).
Proof.
  intros Hreads fuel h Hfuel. unfold list_.
  inversion Hreads as [cs0 res cs0' Hread Htok|cs0 res cs1 pages' cs0' Hread Htok Hrest];
    subst.
  - rewrite (bind_run _ _ _ _ _ (client_Read_run _ _ _ _ h Hread)).
    rewrite Htok.
    assert (Hloop : forall ts, list_loop fuel namespace object relation "" ts (cs', h)
                               = Ret (inl ts, (cs', h))) by (by destruct fuel).
    rewrite (bind_run _ _ _ _ _ (Hloop _)). simpl. rewrite app_nil_r.
    by rewrite (bind_run _ _ _ _ _ (on_heap_run _ cs' _ _ _ (allocs_run _ h))).
  - rewrite (bind_run _ _ _ _ _ (client_Read_run _ _ _ _ h Hread)).
    rewrite (bind_run _ _ _ _ _
               (list_loop_run _ _ _ _ _ _ Hrest fuel _ _ h Htok
                  ltac:(simpl in Hfuel; lia))).
    simpl.
    by rewrite (bind_run _ _ _ _ _ (on_heap_run _ cs' _ _ _ (allocs_run _ h))).
Qed.

(** C4: when repeated reads of the request of a relation answer with pages
    of which the last, and no earlier one, carries the empty continuation
    token, [list] returns with any budget of at least the number of pages
    after the first, whatever the budget beyond that: its result is the
    conversion of the tuples of all the pages, in order, and no error. *)
Theorem list_terminates namespace object relation cs pages cs' fuel (h : Heap) :
  reads_until_empty (read_request namespace object relation) cs pages cs' ->
  List.length pages <= S fuel ->
  list_ fuel namespace object relation (cs, h)
  = Ret (inl (seq (List.length h) (List.length (ToOpenFGATuples (concat pages)))),
         (cs', h ++ ToOpenFGATuples (concat pages))).
Proof. intros Hreads Hfuel. by apply list_run. Qed.

Lemma relations_loop_run namespace object rs cs pagess cs' :
  relations_read namespace object rs cs pagess cs' ->
  forall fuel (out : gmap string loc) (h : Heap),
    Forall (fun pages => List.length pages <= S fuel) pagess ->
    relations_loop fuel object namespace rs out (cs, h)
    = Ret ((Some (file_all file1 (List.length h) (converted pagess) out), None),
           (cs', h ++ converted pagess)).
Proof.
  induction 1 as [cs|r rs cs pages cs1 pagess cs' Hreads Hrest IH];
    intros fuel out h Hfuel; simpl.
  - unfold ret, converted. simpl. by rewrite app_nil_r.
  - apply Forall_cons in Hfuel as [Hfuel1 Hfuel].
    rewrite (bind_run _ _ _ _ _ (list_run _ _ _ _ _ _ Hreads fuel h Hfuel1)).
    set (ts := ToOpenFGATuples (concat pages)).
    assert (Hout : range (seq (List.length h) (List.length ts)) out_body out (h ++ ts)
                   = Ret (file_all file1 (List.length h) ts out, h ++ ts)).
    { apply range_out_body. intros i t Hi. rewrite lookup_app_r by lia.
      by replace (List.length h + i - List.length h) with i by lia. }
    rewrite (bind_run _ _ _ _ _ (on_heap_run _ cs1 _ _ _ Hout)).
    rewrite IH by done. unfold converted. simpl. fold ts.
    by rewrite file_all_app, length_app, <- app_assoc.
Qed.

(** C5: when the reads for the requested relations go through, the output
    of [zanzanaCollector] is one flat map over the converted tuples of all
    the relations, in the order they were read.  A folder-resource tuple has
    as key its string without the condition and any other tuple its full
    string; a key of the map points to the last tuple with that key, which is
    held unchanged, with its own condition. *)
Theorem zanzanaCollector_flat_map namespace object rs cs pagess cs' fuel (h : Heap) :
  relations_read namespace object rs cs pagess cs' ->
  Forall (fun pages => List.length pages <= S fuel) pagess ->
  (forall t, canonical_key t
             = if IsFolderResourceTuple t then TupleKey_String (with_Condition None t)
               else TupleKey_String t) /\
  exists out : gmap string loc,
    zanzanaCollector fuel rs object namespace (cs, h)
    = Ret ((Some out, None), (cs', h ++ converted pagess)) /\
    forall k p,
      out !! k = Some p
      <-> last_with_key canonical_key (List.length h) (converted pagess) k p.
Proof.
  intros Hreads Hfuel. split; [done|].
  exists (file_all file1 (List.length h) (converted pagess) ∅). split.
  - unfold zanzanaCollector. by apply relations_loop_run.
  - intros k p. apply lookup_file_all1.
Qed.

(** C2: a client that answers the first read of a relation with the page
    [T1] and a non-empty continuation token, and the second with the page
    [T2] and the empty token: [list] returns the conversion of the tuples of
    both pages, and the map of [zanzanaCollector] is filed from them. *)
Theorem zanzanaCollector_two_pages namespace object relation
    cs T1 token cs1 T2 cs2 fuel (h : Heap) :
  Read (read_request namespace object relation) cs
  = (inl (authzextv1.ReadResponse.mk T1 token), cs1) ->
  token <> "" ->
  Read (read_request namespace object relation) cs1
  = (inl (authzextv1.ReadResponse.mk T2 ""), cs2) ->
  list_ (S fuel) namespace object relation (cs, h)
  = Ret (inl (seq (List.length h) (List.length (ToOpenFGATuples (T1 ++ T2)))),
         (cs2, h ++ ToOpenFGATuples (T1 ++ T2))) /\
  exists out : gmap string loc,
    zanzanaCollector (S fuel) [relation] object namespace (cs, h)
    = Ret ((Some out, None), (cs2, h ++ ToOpenFGATuples (T1 ++ T2))) /\
    forall k p,
      out !! k = Some p
      <-> last_with_key canonical_key (List.length h) (ToOpenFGATuples (T1 ++ T2)) k p.
Proof.
  intros Hread1 Htoken Hread2.
  assert (Hreads : reads_until_empty (read_request namespace object relation)
                     cs [T1; T2] cs2).
  { apply (reads_more _ cs _ cs1 [T2] cs2 Hread1 Htoken).
    by apply (reads_last _ cs1 _ cs2 Hread2). }
  assert (Hcat : concat [T1; T2] = T1 ++ T2) by (simpl; by rewrite app_nil_r).
  split.
  - rewrite <- Hcat. apply list_run; [done|simpl; lia].
  - exists (file_all file1 (List.length h) (ToOpenFGATuples (T1 ++ T2)) ∅). split.
    + pose proof (relations_loop_run namespace object [relation] cs [[T1; T2]] cs2
                    (relations_read_cons _ _ _ _ _ _ _ _ _ Hreads (relations_read_nil _ _ _))
                    (S fuel) ∅ h) as Hrun.
      unfold converted in Hrun. simpl in Hrun. rewrite !app_nil_r in Hrun.
      apply Hrun. apply Forall_singleton. simpl. lia.
    + intros k p. apply lookup_file_all1.
Qed.

(** *** The log of the reads *)

Lemma clean_nil : clean [].
Proof. intros req r Hin. by apply elem_of_nil in Hin. Qed.

Lemma clean_cons req res l :
  authzextv1.ReadRequest.ContinuationToken req = "" ->
  clean l -> clean ((req, inl res) :: l).
Proof.
  intros Htok Hl req' r' Hin. apply elem_of_cons in Hin as [[= -> ->]|Hin].
  - split; [done|by eexists].
  - by apply Hl.
Qed.

Lemma clean_app l1 l2 : clean l1 -> clean l2 -> clean (l1 ++ l2).
Proof.
  intros H1 H2 req r Hin. apply elem_of_app in Hin as [Hin|Hin]; [by apply H1|by apply H2].
Qed.

Lemma client_Read_logged req (cs : @ClientState _ Cl) log (h : Heap) :
  client_Read (Cl := logged Cl) req ((cs, log), h)
  = Ret ((Read req cs).1, (((Read req cs).2, log ++ [(req, (Read req cs).1)]), h)).
Proof. unfold client_Read. simpl. by destruct (Read req cs). Qed.

Lemma failed_cons req res e l :
  authzextv1.ReadRequest.ContinuationToken req = "" ->
  failed e l -> failed e ((req, inl res) :: l).
Proof.
  intros Htok (l0 & req' & -> & Hl0 & Htok').
  exists ((req, inl res) :: l0), req'. split; [done|]. split; [by apply clean_cons|done].
Qed.

Lemma failed_app e l1 l2 : clean l1 -> failed e l2 -> failed e (l1 ++ l2).
Proof.
  intros Hl1 (l0 & req' & -> & Hl0 & Htok').
  exists (l1 ++ l0), req'. split; [by rewrite app_assoc|]. split; [by apply clean_app|done].
Qed.

Lemma failed_now req e :
  authzextv1.ReadRequest.ContinuationToken req = "" -> failed e [(req, inr e)].
Proof. intros Htok. exists [], req. split; [done|]. split; [apply clean_nil|done]. Qed.

(** What the loop of [list] adds to the log. *)
Lemma list_loop_logged namespace object relation :
  forall fuel c first_Tuples (cs : @ClientState _ Cl) log (h : Heap),
    match list_loop (Cl := logged Cl) fuel namespace object relation c first_Tuples
            ((cs, log), h) with
    | Ret (r, ((cs', log'), h')) =>
        h' = h /\
        exists l, log' = log ++ l /\
          match r with inl _ => clean l | inr e => failed e l end
    | Panic => False
    | OutOfFuel ((cs', log'), h') => exists l, log' = log ++ l /\ clean l
    end.
Proof.
  assert (Hnil : forall log : list (authzextv1.ReadRequest.t *
                                    (authzextv1.ReadResponse.t Tuple + error)),
             exists l, log = log ++ l /\ clean l).
  { intros log. exists []. rewrite app_nil_r. split; [done|apply clean_nil]. }
  induction fuel as [|fuel IH]; intros c first_Tuples cs log h; simpl;
    destruct (decide (c = "")) as [Hc|Hc]; simpl; try (split; [done|]); try apply Hnil.
  unfold bind. rewrite client_Read_logged.
  destruct (Read (read_request namespace object relation) cs) as [[res|e] cs1]; simpl.
  - specialize (IH (authzextv1.ReadResponse.ContinuationToken res)
                   (first_Tuples ++ authzextv1.ReadResponse.Tuples res) cs1
                   (log ++ [(read_request namespace object relation, inl res)]) h).
    destruct (list_loop _ _ _ _ _ _ _) as [[r [[cs' log'] h']]| |[[cs' log'] h']];
      [|done|].
    + destruct IH as (-> & l & -> & Hl). split; [done|].
      exists ((read_request namespace object relation, inl res) :: l).
      split; [by rewrite <- app_assoc|].
      destruct r; [by apply clean_cons|by apply failed_cons].
    + destruct IH as (l & -> & Hl).
      exists ((read_request namespace object relation, inl res) :: l).
      split; [by rewrite <- app_assoc|]. by apply clean_cons.
  - split; [done|]. eexists. split; [done|]. by apply failed_now.
Qed.

(** What [list] adds to the log, and to the heap when it goes through. *)
Lemma list_logged namespace object relation fuel
    (cs : @ClientState _ Cl) log (h : Heap) :
  match list_ (Cl := logged Cl) fuel namespace object relation ((cs, log), h) with
  | Ret (r, ((cs', log'), h')) =>
      exists l, log' = log ++ l /\
        match r with
        | inl ps =>
            clean l /\
            exists ts, h' = h ++ ts /\ ps = seq (List.length h) (List.length ts)
        | inr e => failed e l
        end
  | Panic => False
  | OutOfFuel ((cs', log'), h') => exists l, log' = log ++ l /\ clean l
  end.
Proof.
  unfold list_. unfold bind at 1. rewrite client_Read_logged.
  destruct (Read (read_request namespace object relation) cs) as [[first|e] cs1]; simpl.
  - unfold bind at 1.
    pose proof (list_loop_logged namespace object relation fuel
                  (authzextv1.ReadResponse.ContinuationToken first)
                  (authzextv1.ReadResponse.Tuples first) cs1
                  (log ++ [(read_request namespace object relation, inl first)]) h)
      as Hloop.
    destruct (list_loop _ _ _ _ _ _ _) as [[r [[cs' log'] h']]| |[[cs' log'] h']];
      [|done|].
    + destruct Hloop as (-> & l & -> & Hl). destruct r as [ts|e].
      * unfold bind, on_heap. rewrite allocs_run.
        simpl. exists ((read_request namespace object relation, inl first) :: l).
        split; [by rewrite <- app_assoc|]. split; [by apply clean_cons|].
        by eexists.
      * simpl. exists ((read_request namespace object relation, inl first) :: l).
        split; [by rewrite <- app_assoc|]. by apply failed_cons.
    + destruct Hloop as (l & -> & Hl).
      exists ((read_request namespace object relation, inl first) :: l).
      split; [by rewrite <- app_assoc|]. by apply clean_cons.
  - eexists. split; [done|]. by apply failed_now.
Qed.

(** What the loop over the relations adds to the log: it never panics; it
    runs out of budget or goes through only after a clean stretch, and it
    returns an error, and no map, right after the read that failed with it. *)
Lemma relations_loop_logged namespace object fuel :
  forall rs (out : gmap string loc) (cs : @ClientState _ Cl) log (h : Heap),
    match relations_loop (Cl := logged Cl) fuel object namespace rs out
            ((cs, log), h) with
    | Ret (res, ((cs', log'), h')) =>
        exists l, log' = log ++ l /\
          match res with
          | (Some _, None) => clean l
          | (None, Some e) => failed e l
          | _ => False
          end
    | Panic => False
    | OutOfFuel ((cs', log'), h') => exists l, log' = log ++ l /\ clean l
    end.
Proof.
  induction rs as [|r rs IH]; intros out cs log h; simpl.
  - exists []. rewrite app_nil_r. split; [done|apply clean_nil].
  - unfold bind at 1.
    pose proof (list_logged namespace object r fuel cs log h) as Hlist.
    destruct (list_ _ _ _ _ _) as [[res [[cs1 log1] h1]]| |[[cs1 log1] h1]];
      [|done|done].
    destruct Hlist as (l1 & -> & Hl1). destruct res as [ps|e]; [|by exists l1].
    destruct Hl1 as (Hl1 & ts & -> & ->).
    assert (Hout : range (seq (List.length h) (List.length ts)) out_body out (h ++ ts)
                   = Ret (file_all file1 (List.length h) ts out, h ++ ts)).
    { apply range_out_body. intros i t Hi. rewrite lookup_app_r by lia.
      by replace (List.length h + i - List.length h) with i by lia. }
    unfold bind at 1, on_heap. rewrite Hout.
    specialize (IH (file_all file1 (List.length h) ts out) cs1 (log ++ l1) (h ++ ts)).
    destruct (relations_loop _ _ _ _ _ _) as [[res [[cs' log'] h']]| |[[cs' log'] h']];
      [|done|].
    + destruct IH as (l2 & -> & Hl2). exists (l1 ++ l2).
      split; [by rewrite app_assoc|].
      destruct res as [[out'|] [e|]]; try done; [by apply clean_app|by apply failed_app].
    + destruct IH as (l2 & -> & Hl2). exists (l1 ++ l2).
      split; [by rewrite app_assoc|]. by apply clean_app.
Qed.

(** Logging changes nothing but the log. *)
Lemma bind_forget {C L A B : Type}
    (c1 : M ((C * L) * Heap) A) (c2 : M (C * Heap) A)
    (k1 : A -> M ((C * L) * Heap) B) (k2 : A -> M (C * Heap) B) cs log (h : Heap) :
  forget_log (c1 ((cs, log), h)) = c2 (cs, h) ->
  (forall a cs' log' (h' : Heap),
      forget_log (k1 a ((cs', log'), h')) = k2 a (cs', h')) ->
  forget_log (bind c1 k1 ((cs, log), h)) = bind c2 k2 (cs, h).
Proof.
  intros H1 H2. unfold bind. rewrite <- H1.
  destruct (c1 _) as [[a [[cs' log'] h']]| |[[cs' log'] h']]; simpl; [apply H2|done|done].
Qed.

Lemma client_Read_forget req (cs : @ClientState _ Cl) log (h : Heap) :
  forget_log (client_Read (Cl := logged Cl) req ((cs, log), h)) = client_Read req (cs, h).
Proof. rewrite client_Read_logged. unfold client_Read. by destruct (Read req cs). Qed.

Lemma on_heap_forget {C L A : Type} (c : M Heap A) (cs : C) (log : L) (h : Heap) :
  forget_log (on_heap c ((cs, log), h)) = on_heap c (cs, h).
Proof. unfold on_heap. by destruct (c h) as [[a h']| |h']. Qed.

Lemma list_loop_forget namespace object relation :
  forall fuel c first_Tuples (cs : @ClientState _ Cl) log (h : Heap),
    forget_log (list_loop (Cl := logged Cl) fuel namespace object relation c
                  first_Tuples ((cs, log), h))
    = list_loop fuel namespace object relation c first_Tuples (cs, h).
Proof.
  induction fuel as [|fuel IH]; intros c first_Tuples cs log h; simpl;
    destruct (decide (c = "")); try done.
  apply bind_forget; [apply client_Read_forget|].
  intros [res|e] cs' log' h'; [apply IH|done].
Qed.

Lemma list_forget namespace object relation fuel
    (cs : @ClientState _ Cl) log (h : Heap) :
  forget_log (list_ (Cl := logged Cl) fuel namespace object relation ((cs, log), h))
  = list_ fuel namespace object relation (cs, h).
Proof.
  unfold list_. apply bind_forget; [apply client_Read_forget|].
  intros [first|e] cs1 log1 h1; [|done].
  apply bind_forget; [apply list_loop_forget|].
  intros [ts|e] cs2 log2 h2; [|done].
  apply bind_forget; [apply on_heap_forget|done].
Qed.

Lemma relations_loop_forget namespace object fuel :
  forall rs (out : gmap string loc) (cs : @ClientState _ Cl) log (h : Heap),
    forget_log (relations_loop (Cl := logged Cl) fuel object namespace rs out
                  ((cs, log), h))
    = relations_loop fuel object namespace rs out (cs, h).
Proof.
  induction rs as [|r rs IH]; intros out cs log h; simpl; [done|].
  apply bind_forget; [apply list_forget|].
  intros [ps|e] cs1 log1 h1; [|done].
  apply bind_forget; [apply on_heap_forget|].
  intros out' cs2 log2 h2. apply IH.
Qed.

Lemma clean_no_error l req e : clean l -> (req, inr e) ∉ l.
Proof. intros Hl Hin. by destruct (Hl _ _ Hin) as [_ [res Hres]]. Qed.

(** No request of a run carries a continuation token, whatever the tokens
    of the responses before it. *)
Lemma zanzanaCollector_requests_without_token fuel rs object namespace
    (cs : @ClientState _ Cl) (h : Heap) :
  match zanzanaCollector (Cl := logged Cl) fuel rs object namespace ((cs, []), h) with
  | Ret (_, ((_, log), _)) | OutOfFuel ((_, log), _) =>
      forall req r, (req, r) ∈ log -> authzextv1.ReadRequest.ContinuationToken req = ""
  | Panic => False
  end.
Proof.
  unfold zanzanaCollector.
  pose proof (relations_loop_logged namespace object fuel rs ∅ cs [] h) as Hlog.
  destruct (relations_loop _ _ _ _ _ _) as [[res [[cs' log'] h']]| |[[cs' log'] h']];
    [|done|].
  - destruct Hlog as (l & -> & Hl). simpl. intros req r Hin.
    destruct res as [[out|] [e|]]; try done.
    + by destruct (Hl _ _ Hin).
    + destruct Hl as (l0 & req0 & -> & Hl0 & Htok).
      apply elem_of_app in Hin as [Hin|Hin]; [by destruct (Hl0 _ _ Hin)|].
      by apply list_elem_of_singleton in Hin as [= -> ->].
  - destruct Hlog as (l & -> & Hl). simpl. intros req r Hin. by destruct (Hl _ _ Hin).
Qed.

(** C9: a collector whose query, or one of whose reads, fails returns the
    error and a nil map.  For the legacy collectors this is the error of the
    session, whatever the rows scanned so far, and the heap is untouched.  For
    the mirror collector, run against a client that logs its reads, which
    changes nothing but the log: the run never panics; a run that returns
    after a read failed returns the error of that read, which is the last
    read of the log, and no map; a run that returns with no failed read
    returns a map; and a run that uses up its budget has seen no failed read. *)
Theorem collectors_nil_on_error :
  (forall store rows e (h : Heap),
      db.find_memberships store = (rows, Some e) ->
      teamMembershipCollector store h = Ret ((None, Some e), h)) /\
  (forall store rows e (h : Heap),
      db.find_folders store = (rows, Some e) ->
      folderTreeCollector store h = Ret ((None, Some e), h)) /\
  (forall store kind rows e (h : Heap),
      db.find_permissions store kind = (rows, Some e) ->
      managedPermissionsCollector store kind h = Ret ((None, Some e), h)) /\
  (forall fuel rs object namespace (cs : @ClientState _ Cl) (h : Heap),
      forget_log (zanzanaCollector (Cl := logged Cl) fuel rs object namespace
                    ((cs, []), h))
      = zanzanaCollector fuel rs object namespace (cs, h) /\
      match zanzanaCollector (Cl := logged Cl) fuel rs object namespace
              ((cs, []), h) with
      | Ret (res, ((cs', log), h')) =>
          ((forall req e, (req, inr e) ∉ log) -> exists out, res = (Some out, None)) /\
          (forall req e, (req, inr e) ∈ log ->
             res = (None, Some e) /\ last log = Some (req, inr e))
      | Panic => False
      | OutOfFuel ((cs', log), h') => forall req e, (req, inr e) ∉ log
      end).
Proof.
  split; [|split; [|split]].
  - intros store rows e h Hq. unfold teamMembershipCollector. by rewrite Hq.
  - intros store rows e h Hq. unfold folderTreeCollector. by rewrite Hq.
  - intros store kind rows e h Hq. unfold managedPermissionsCollector. by rewrite Hq.
  - intros fuel rs object namespace cs h. unfold zanzanaCollector.
    split; [apply relations_loop_forget|].
    pose proof (relations_loop_logged namespace object fuel rs ∅ cs [] h) as Hlog.
    destruct (relations_loop _ _ _ _ _ _) as [[res [[cs' log'] h']]| |[[cs' log'] h']];
      [|done|].
    + destruct Hlog as (l & -> & Hl). simpl.
      destruct res as [[out|] [e|]]; try done.
      * split; [by eexists|]. intros req e Hin. by apply clean_no_error in Hin.
      * destruct Hl as (l0 & req0 & -> & Hl0 & Htok). split.
        -- intros Hno. exfalso. apply (Hno req0 e). apply elem_of_app. right.
           apply list_elem_of_singleton. done.
        -- intros req e' Hin. apply elem_of_app in Hin as [Hin|Hin].
           ++ by apply clean_no_error in Hin.
           ++ apply list_elem_of_singleton in Hin as [= -> ->].
              split; [done|]. by rewrite last_snoc.
    + destruct Hlog as (l & -> & Hl). simpl. intros req e. by apply clean_no_error.
Qed.

(** *** Any client *)

(** X7: against a client that answers the request of a relation with a
    non-empty continuation token and stays in the same state, as a service
    that pages by the token of the request does, [list] never returns: every
    budget is used up, and so is that of a [zanzanaCollector] that starts
    with this relation. *)
Theorem list_never_returns namespace object relation cs res fuel (h : Heap) :
  Read (read_request namespace object relation) cs = (inl res, cs) ->
  authzextv1.ReadResponse.ContinuationToken res <> "" ->
  list_ fuel namespace object relation (cs, h) = OutOfFuel (cs, h) /\
  forall rs,
    zanzanaCollector fuel (relation :: rs) object namespace (cs, h) = OutOfFuel (cs, h).
Proof.
  intros Hread Htok.
  assert (Hloop : forall fuel c first_Tuples, c <> "" ->
            list_loop fuel namespace object relation c first_Tuples (cs, h)
            = OutOfFuel (cs, h)).
  { clear fuel. induction fuel as [|fuel IH]; intros c first_Tuples Hc; simpl;
      rewrite decide_False by done; [done|].
    rewrite (bind_run _ _ _ _ _ (client_Read_run _ _ _ _ h Hread)). by apply IH. }
  assert (Hlist : list_ fuel namespace object relation (cs, h) = OutOfFuel (cs, h)).
  { unfold list_. rewrite (bind_run _ _ _ _ _ (client_Read_run _ _ _ _ h Hread)).
    unfold bind. by rewrite Hloop. }
  split; [done|]. intros rs. unfold zanzanaCollector. simpl.
  unfold bind. by rewrite Hlist.
Qed.

Lemma list_loop_heap namespace object relation :
  forall fuel c first_Tuples cs (h : Heap),
    match list_loop fuel namespace object relation c first_Tuples (cs, h) with
    | Ret (_, (_, h')) | OutOfFuel (_, h') => h' = h
    | Panic => False
    end.
Proof.
  induction fuel as [|fuel IH]; intros c first_Tuples cs h; simpl;
    destruct (decide (c = "")); try done.
  unfold bind, client_Read.
  destruct (Read (read_request namespace object relation) cs) as [[res|e] cs1]; [|done].
  apply IH.
Qed.

Lemma list_shape namespace object relation fuel cs (h : Heap) :
  match list_ fuel namespace object relation (cs, h) with
  | Ret (inl ps, (_, h')) =>
      exists ts, h' = h ++ ts /\ ps = seq (List.length h) (List.length ts)
  | Ret (inr _, (_, h')) | OutOfFuel (_, h') => h' = h
  | Panic => False
  end.
Proof.
  unfold list_. unfold bind at 1. unfold client_Read.
  destruct (Read (read_request namespace object relation) cs) as [[first|e] cs1]; [|done].
  unfold bind at 1.
  pose proof (list_loop_heap namespace object relation fuel
                (authzextv1.ReadResponse.ContinuationToken first)
                (authzextv1.ReadResponse.Tuples first) cs1 h) as Hloop.
  destruct (list_loop _ _ _ _ _ _ _) as [[[ts|e] [cs' h']]| |[cs' h']]; try done.
  subst h'. rewrite (bind_run _ _ _ _ _ (on_heap_run _ cs' _ _ _ (allocs_run _ h))).
  by eexists.
Qed.

Lemma relations_loop_shape namespace object fuel :
  forall rs (out : gmap string loc) cs (h : Heap),
    match relations_loop fuel object namespace rs out (cs, h) with
    | Ret ((Some out', None), (_, h')) =>
        exists ts, h' = h ++ ts /\ out' = file_all file1 (List.length h) ts out
    | Ret ((None, Some _), (_, h')) | OutOfFuel (_, h') => exists ts, h' = h ++ ts
    | Ret _ => False
    | Panic => False
    end.
Proof.
  induction rs as [|r rs IH]; intros out cs h; simpl.
  - exists []. by rewrite app_nil_r.
  - unfold bind at 1.
    pose proof (list_shape namespace object r fuel cs h) as Hlist.
    destruct (list_ _ _ _ _ _) as [[[ps|e] [cs1 h1]]| |[cs1 h1]]; try done.
    + destruct Hlist as (ts & -> & ->).
      assert (Hout : range (seq (List.length h) (List.length ts)) out_body out (h ++ ts)
                     = Ret (file_all file1 (List.length h) ts out, h ++ ts)).
      { apply range_out_body. intros i t Hi. rewrite lookup_app_r by lia.
        by replace (List.length h + i - List.length h) with i by lia. }
      rewrite (bind_run _ _ _ _ _ (on_heap_run _ cs1 _ _ _ Hout)).
      specialize (IH (file_all file1 (List.length h) ts out) cs1 (h ++ ts)).
      destruct (relations_loop _ _ _ _ _ _) as [[[[out'|] [e|]] [cs' h']]| |[cs' h']];
        try done.
      * destruct IH as (ts' & -> & ->). exists (ts ++ ts').
        split; [by rewrite app_assoc|]. by rewrite file_all_app, length_app.
      * destruct IH as (ts' & ->). exists (ts ++ ts'). by rewrite app_assoc.
      * destruct IH as (ts' & ->). exists (ts ++ ts'). by rewrite app_assoc.
    + subst h1. exists []. by rewrite app_nil_r.
    + subst h1. exists []. by rewrite app_nil_r.
Qed.

(** X8: for a client that answers each read with a response or with an
    error, and whatever the budget, a run of [zanzanaCollector] that returns
    or runs out of budget leaves the tuples that were on the heap as they
    were; when it returns, it returns either a map and no error or an error
    and no map.  A map it returns is filed from the tuples the call has
    added, in order: a key points to the last of them with that key, and each
    of them has an entry under its key, pointing to an added tuple with that
    key.  Nothing is said of a run that panics: a read that answers with
    neither a response nor an error, at which the source reads the token of
    a nil response, is not among the answers of [Read]. *)
Theorem zanzanaCollector_any_client fuel rs object namespace cs (h : Heap) :
  match zanzanaCollector fuel rs object namespace (cs, h) with
  | Ret ((Some out, None), (_, h')) =>
      exists ts, h' = h ++ ts /\
        (forall k p,
            out !! k = Some p
            <-> last_with_key canonical_key (List.length h) ts k p) /\
        (forall t, t ∈ ts ->
            exists p t',
              out !! canonical_key t = Some p /\ h' !! p = Some t' /\
              t' ∈ ts /\ canonical_key t' = canonical_key t)
  | Ret ((None, Some _), (_, h')) | OutOfFuel (_, h') => exists ts, h' = h ++ ts
  | Ret _ => False
  | Panic => True
  end.
Proof.
  unfold zanzanaCollector.
  pose proof (relations_loop_shape namespace object fuel rs ∅ cs h) as Hshape.
  destruct (relations_loop _ _ _ _ _ _) as [[[[out|] [e|]] [cs' h']]| |[cs' h']];
    try done.
  destruct Hshape as (ts & -> & ->). exists ts. split; [done|]. split.
  - intros k p. apply lookup_file_all1.
  - intros t Hin. apply list_elem_of_lookup in Hin as [i Hi].
    destruct (last_with_key_exists canonical_key ts (List.length h) i t Hi)
      as (j & t' & Hle & Hj & Hk & Hlast).
    exists (List.length h + j), t'. split; [by apply lookup_file_all1|].
    split.
    { rewrite lookup_app_r by lia.
      by replace (List.length h + j - List.length h) with j by lia. }
    split; [apply list_elem_of_lookup; by exists j|done].
Qed.

(** *** A read that fails *)

Lemma list_loop_error namespace object relation cs n e cs' :
  reads_until_error (read_request namespace object relation) cs n e cs' ->
  forall fuel c first_Tuples (h : Heap),
    c <> "" ->
    n <= fuel ->
    list_loop fuel namespace object relation c first_Tuples (cs, h)
    = Ret (inr e, (cs', h)).
Proof.
  induction 1 as [cs e cs' Hread|cs res cs1 n e cs' Hread Htok Hrest IH];
    intros fuel c first_Tuples h Hc Hfuel;
    (destruct fuel as [|fuel]; [lia|]); simpl; rewrite decide_False by done;
    rewrite (bind_run _ _ _ _ _ (client_Read_run _ _ _ _ h Hread)); [done|].
  apply IH; [done|lia].
Qed.

Lemma list_error namespace object relation cs n e cs' fuel (h : Heap) :
  reads_until_error (read_request namespace object relation) cs n e cs' ->
  n <= S fuel ->
  list_ fuel namespace object relation (cs, h) = Ret (inr e, (cs', h)).
Proof.
  intros Hreads Hfuel. unfold list_.
  inversion Hreads as [cs0 e0 cs0' Hread|cs0 res cs1 n' e0 cs0' Hread Htok Hrest]; subst.
  - by rewrite (bind_run _ _ _ _ _ (client_Read_run _ _ _ _ h Hread)).
  - rewrite (bind_run _ _ _ _ _ (client_Read_run _ _ _ _ h Hread)).
    by rewrite (bind_run _ _ _ _ _
                  (list_loop_error _ _ _ _ _ _ _ Hrest fuel _ _ h Htok ltac:(lia))).
Qed.

Lemma relations_loop_app namespace object rs1 cs pagess cs1 :
  relations_read namespace object rs1 cs pagess cs1 ->
  forall fuel rs2 (out : gmap string loc) (h : Heap),
    Forall (fun pages => List.length pages <= S fuel) pagess ->
    relations_loop fuel object namespace (rs1 ++ rs2) out (cs, h)
    = relations_loop fuel object namespace rs2
        (file_all file1 (List.length h) (converted pagess) out)
        (cs1, h ++ converted pagess).
Proof.
  induction 1 as [cs|r rs cs pages cs1 pagess cs' Hreads Hrest IH];
    intros fuel rs2 out h Hfuel; simpl.
  - unfold converted. simpl. by rewrite app_nil_r.
  - apply Forall_cons in Hfuel as [Hfuel1 Hfuel].
    rewrite (bind_run _ _ _ _ _ (list_run _ _ _ _ _ _ Hreads fuel h Hfuel1)).
    set (ts := ToOpenFGATuples (concat pages)).
    assert (Hout : range (seq (List.length h) (List.length ts)) out_body out (h ++ ts)
                   = Ret (file_all file1 (List.length h) ts out, h ++ ts)).
    { apply range_out_body. intros i t Hi. rewrite lookup_app_r by lia.
      by replace (List.length h + i - List.length h) with i by lia. }
    rewrite (bind_run _ _ _ _ _ (on_heap_run _ cs1 _ _ _ Hout)).
    rewrite IH by done. unfold converted. simpl. fold ts.
    by rewrite file_all_app, length_app, <- app_assoc.
Qed.

(** X9: when the reads of the relations [rs1] go through and a read of the
    next relation [r] fails with [e], after any number of pages with a
    non-empty token, [zanzanaCollector] returns [e] and no map.  The client
    ends in the state of the failed read, so the relations after [r] are not
    read, and the heap holds the converted tuples of [rs1] only: the pages
    of [r] read before the failure are not converted. *)
Theorem zanzanaCollector_aborts_on_error namespace object rs1 r rs2
    cs pagess cs1 n e cs2 fuel (h : Heap) :
  relations_read namespace object rs1 cs pagess cs1 ->
  reads_until_error (read_request namespace object r) cs1 n e cs2 ->
  Forall (fun pages => List.length pages <= S fuel) pagess ->
  n <= S fuel ->
  zanzanaCollector fuel (rs1 ++ r :: rs2) object namespace (cs, h)
  = Ret ((None, Some e), (cs2, h ++ converted pagess)).
Proof.
  intros Hreads Herr Hfuel Hn. unfold zanzanaCollector.
  rewrite (relations_loop_app _ _ _ _ _ _ Hreads fuel (r :: rs2) ∅ h Hfuel). simpl.
  by rewrite (bind_run _ _ _ _ _ (list_error _ _ _ _ _ _ _ fuel _ Herr Hn)).
Qed.

End Mirror.

(** ** tupleStringWithoutCondition *)

(** C10: on a tuple key [t] held at [tuple], [tupleStringWithoutCondition]
    returns the string form of [t] with its condition cleared, and the heap
    after the call is the heap before it: the condition is back in place and
    no other tuple key was touched. *)
Theorem tupleStringWithoutCondition_frame (h : Heap) (tuple : loc) (t : TupleKey) :
  h !! tuple = Some t ->
  tupleStringWithoutCondition tuple h
  = Ret (TupleKey_String (with_Condition None t), h).
Proof. apply tupleStringWithoutCondition_run. Qed.

(** ** No row is lost *)

Lemma file_all2_complete (ts : list TupleKey) (h : Heap) t :
  t ∈ ts ->
  exists p t',
    lookup2 (openfgav1.Object t) (TupleKey_String t)
      (file_all file2 (List.length h) ts ∅) = Some p /\
    (h ++ ts) !! p = Some t' /\
    t' ∈ ts /\ key2 t' = key2 t /\ List.length h <= p.
Proof.
  intros Hin. apply list_elem_of_lookup in Hin as [i Hi].
  destruct (last_with_key_exists key2 ts (List.length h) i t Hi)
    as (j & t' & Hle & Hj & Hk & Hlast).
  exists (List.length h + j), t'. split; [by apply lookup2_file_all|].
  split.
  { rewrite lookup_app_r by lia.
    by replace (List.length h + j - List.length h) with j by lia. }
  split; [apply list_elem_of_lookup; by exists j|]. split; [done|lia].
Qed.

Lemma teamMembershipCollector_run (rows : list membership.t) fs ps (h : Heap) :
  teamMembershipCollector (db.mkDB (rows, None) fs ps) h
  = Ret ((Some (file_all file2 (List.length h) (membership_tuple <$> rows) ∅), None),
         h ++ (membership_tuple <$> rows)).
Proof.
  unfold teamMembershipCollector. simpl.
  pose proof (range_file2 (fun m => Some (membership_tuple m)) team_body
                team_body_run rows ∅ h) as Hrun.
  assert (Homap : omap (fun m => Some (membership_tuple m)) rows
                  = membership_tuple <$> rows).
  { clear. induction rows as [|m rows IH]; [done|]. simpl. by f_equal. }
  rewrite Homap in Hrun. by rewrite (bind_run _ _ _ _ _ Hrun).
Qed.

Lemma folderTreeCollector_run (rows : list folder.t) ms ps (h : Heap) :
  folderTreeCollector (db.mkDB ms (rows, None) ps) h
  = Ret ((Some (file_all file2 (List.length h)
                  (folder_tuple <$> filter (fun f => folder.ParentUID f <> "") rows) ∅),
          None),
         h ++ (folder_tuple <$> filter (fun f => folder.ParentUID f <> "") rows)).
Proof.
  unfold folderTreeCollector. simpl.
  pose proof (range_file2 _ folder_body folder_body_run rows ∅ h) as Hrun.
  rewrite omap_non_root in Hrun. by rewrite (bind_run _ _ _ _ _ Hrun).
Qed.

(** X1: no membership row is lost.  For every row of the store, the map of
    [teamMembershipCollector] has an entry under the row's team object and the
    string of the row's tuple; the entry points to a tuple allocated by this
    call, which is the tuple of a row of the store with that object and
    string. *)
Theorem teamMembershipCollector_every_row_filed
    (rows : list membership.t) fs ps (h : Heap) :
  exists (tuples : TupleMap) (ts : list TupleKey),
    teamMembershipCollector (db.mkDB (rows, None) fs ps) h
    = Ret ((Some tuples, None), h ++ ts) /\
    forall m, m ∈ rows ->
      exists p m',
        lookup2 (zanzana.NewTupleEntry zanzana.TypeTeam (membership.TeamUID m) "")
          (TupleKey_String (membership_tuple m)) tuples = Some p /\
        List.length h <= p /\
        (h ++ ts) !! p = Some (membership_tuple m') /\
        m' ∈ rows /\
        membership.TeamUID m' = membership.TeamUID m /\
        TupleKey_String (membership_tuple m') = TupleKey_String (membership_tuple m).
Proof.
  eexists _, _. split; [apply teamMembershipCollector_run|].
  intros m Hm.
  destruct (file_all2_complete (membership_tuple <$> rows) h (membership_tuple m))
    as (p & t' & Hlook & Hp & Hin & Hk & Hle).
  { apply list_elem_of_fmap. by exists m. }
  apply list_elem_of_fmap in Hin as (m' & -> & Hm').
  exists p, m'. split; [exact Hlook|]. split; [done|]. split; [done|]. split; [done|].
  injection Hk as Ho Hs. split; [|done].
  unfold membership_tuple, zanzana.NewTupleEntry in Ho. simpl in Ho.
  by simplify_eq.
Qed.

(** X2: no folder with a parent is lost.  For every folder row with a
    non-empty parent uid, the map of [folderTreeCollector] has an entry under
    the folder's object and the string of its parent tuple, pointing to a
    tuple allocated by this call, which is the parent tuple of a row with the
    same folder uid and the same string. *)
Theorem folderTreeCollector_every_child_filed
    (rows : list folder.t) ms ps (h : Heap) :
  exists (tuples : TupleMap) (ts : list TupleKey),
    folderTreeCollector (db.mkDB ms (rows, None) ps) h
    = Ret ((Some tuples, None), h ++ ts) /\
    forall f, f ∈ rows -> folder.ParentUID f <> "" ->
      exists p f',
        lookup2 (zanzana.NewTupleEntry common.TypeFolder (folder.FolderUID f) "")
          (TupleKey_String (folder_tuple f)) tuples = Some p /\
        List.length h <= p /\
        (h ++ ts) !! p = Some (folder_tuple f') /\
        f' ∈ rows /\ folder.ParentUID f' <> "" /\
        folder.FolderUID f' = folder.FolderUID f /\
        TupleKey_String (folder_tuple f') = TupleKey_String (folder_tuple f).
Proof.
  eexists _, _. split; [apply folderTreeCollector_run|].
  intros f Hf Hparent.
  destruct (file_all2_complete
              (folder_tuple <$> filter (fun f => folder.ParentUID f <> "") rows) h
              (folder_tuple f))
    as (p & t' & Hlook & Hp & Hin & Hk & Hle).
  { apply list_elem_of_fmap. exists f. split; [done|]. by apply list_elem_of_filter. }
  apply list_elem_of_fmap in Hin as (f' & -> & Hf').
  apply list_elem_of_filter in Hf' as [Hparent' Hf'].
  exists p, f'. split; [exact Hlook|]. split; [done|]. split; [done|]. split; [done|].
  split; [done|]. injection Hk as Ho Hs. split; [|done].
  unfold folder_tuple, zanzana.NewTupleEntry in Ho. simpl in Ho.
  by simplify_eq.
Qed.

(** ** What managedPermissionsCollector keeps *)

Lemma lookup_put_ensure o k q o' (tuples : TupleMap) :
  put o k q (ensure_object o tuples) !! o'
  = if decide (o' = o) then Some (<[k := q]> (default ∅ (tuples !! o)))
    else tuples !! o'.
Proof.
  unfold put, ensure_object.
  destruct (tuples !! o) as [inner|] eqn:Hin; simpl.
  - rewrite Hin. destruct (decide (o' = o)) as [->|Hne].
    + by rewrite lookup_insert_eq.
    + by rewrite lookup_insert_ne.
  - rewrite lookup_insert_eq. destruct (decide (o' = o)) as [->|Hne].
    + by rewrite lookup_insert_eq.
    + by rewrite !lookup_insert_ne.
Qed.

Lemma ensure_object_present o k q (tuples : TupleMap) :
  lookup2 o k tuples = Some q -> ensure_object o tuples = tuples.
Proof.
  unfold lookup2, ensure_object. by destruct (tuples !! o).
Qed.

Lemma filed_by_run_empty (h : Heap) : filed_by_run h ∅ h.
Proof.
  split.
  - intros o k q. by rewrite lookup2_empty.
  - intros o inner. by rewrite lookup_empty.
Qed.

Lemma filed_by_run_put (h0 : Heap) (tuples : TupleMap) (h : Heap) t k :
  List.length h0 <= List.length h ->
  filed_by_run h0 tuples h ->
  filed_by_run h0
    (put (openfgav1.Object t) k (List.length h) (ensure_object (openfgav1.Object t) tuples))
    (h ++ [t]).
Proof.
  intros Hle [Hptr Hinner]. split.
  - intros o k' q. rewrite lookup2_put_ensure, length_app. simpl.
    case_decide as Hk.
    + intros [= <-]. injection Hk as -> ->. split; [lia|].
      exists t. split; [apply lookup_fresh|done].
    + intros Hq. destruct (Hptr _ _ _ Hq) as (Hrange & t' & Ht' & Ho).
      split; [lia|]. exists t'. split; [by apply lookup_app_l_Some|done].
  - intros o inner. rewrite lookup_put_ensure. case_decide.
    + intros [= <-]. apply insert_non_empty.
    + apply Hinner.
Qed.

(** One row of the managed permissions keeps [filed_by_run] and adds one
    cell exactly when the row translates. *)
Lemma managed_body_filed p (h0 : Heap) (tuples : TupleMap) (ts : list TupleKey) :
  filed_by_run h0 tuples (h0 ++ ts) ->
  exists (tuples' : TupleMap) (ts' : list TupleKey),
    managed_body p tuples (h0 ++ ts) = Ret (tuples', h0 ++ ts') /\
    filed_by_run h0 tuples' (h0 ++ ts') /\
    List.length ts'
    = List.length ts + match translated p with Some _ => 1 | None => 0 end.
Proof.
  intros Hinv. destruct (translated p) as [t|] eqn:Htr.
  2:{ exists tuples, ts. split; [by apply managed_body_skip|]. split; [done|lia]. }
  assert (Hle : List.length h0 <= List.length (h0 ++ ts)) by (rewrite length_app; lia).
  rewrite (managed_body_run p t tuples _ Htr). cbv zeta.
  destruct (IsFolderResourceTuple t).
  - destruct (lookup2 _ _ tuples) as [q|] eqn:Hq.
    + destruct Hinv as [Hptr Hinner].
      destruct (Hptr _ _ _ Hq) as (Hrange & tq & Htq & Ho).
      rewrite (bind_run _ _ _ _ _ (MergeFolderResourceTuples_run _ q tq t Htq)).
      rewrite (ensure_object_present _ _ _ _ Hq).
      set (tq' := with_Condition _ tq).
      exists tuples, (<[q - List.length h0 := tq']> ts ++ [t]).
      assert (Hheap : <[q := tq']> (h0 ++ ts) = h0 ++ <[q - List.length h0 := tq']> ts)
        by (apply insert_app_r_alt; lia).
      split; [unfold ret; by rewrite Hheap, <- app_assoc|].
      split; [|rewrite length_app, length_insert; simpl; lia].
      rewrite app_assoc, <- Hheap. split.
      * intros o k q' Hq'. destruct (Hptr _ _ _ Hq') as (Hrange' & t' & Ht' & Ho').
        split; [rewrite length_app, length_insert; lia|].
        destruct (decide (q' = q)) as [->|Hne].
        -- exists tq'. split.
           ++ apply lookup_app_l_Some, list_lookup_insert_eq. lia.
           ++ simplify_eq. done.
        -- exists t'. split; [|done].
           apply lookup_app_l_Some. by rewrite list_lookup_insert_ne.
      * exact Hinner.
    + exists (put (openfgav1.Object t) (TupleKey_String (with_Condition None t))
                (List.length (h0 ++ ts)) (ensure_object (openfgav1.Object t) tuples)),
             (ts ++ [t]).
      split; [by rewrite app_assoc|]. rewrite app_assoc.
      split; [by apply filed_by_run_put|rewrite length_app; simpl; lia].
  - exists (file2 t (List.length (h0 ++ ts)) tuples), (ts ++ [t]).
    split; [by rewrite app_assoc|]. rewrite app_assoc.
    split; [by apply filed_by_run_put|rewrite length_app; simpl; lia].
Qed.

Lemma range_managed_filed (h0 : Heap) (rows : list Permission.t) :
  forall (tuples : TupleMap) (ts : list TupleKey),
    filed_by_run h0 tuples (h0 ++ ts) ->
    exists (tuples' : TupleMap) (ts' : list TupleKey),
      range rows managed_body tuples (h0 ++ ts) = Ret (tuples', h0 ++ ts') /\
      filed_by_run h0 tuples' (h0 ++ ts') /\
      List.length ts'
      = List.length ts + List.length (filter (fun p => is_Some (translated p)) rows).
Proof.
  induction rows as [|p rows IH]; intros tuples ts Hinv; simpl.
  - exists tuples, ts. split; [done|]. split; [done|]. simpl. lia.
  - destruct (managed_body_filed p h0 tuples ts Hinv) as (tuples1 & ts1 & Hrun & Hinv1 & Hlen1).
    rewrite (bind_run _ _ _ _ _ Hrun).
    destruct (IH tuples1 ts1 Hinv1) as (tuples' & ts' & Hrun' & Hinv' & Hlen').
    exists tuples', ts'. split; [done|]. split; [done|].
    rewrite Hlen', Hlen1. destruct (translated p) as [t|] eqn:Htr.
    + rewrite filter_cons_True by (by rewrite Htr). simpl. lia.
    + rewrite filter_cons_False by (rewrite Htr; by intros [? ?]). lia.
Qed.

Lemma managedPermissionsCollector_filed store kind (rows : list Permission.t) (h : Heap) :
  db.find_permissions store kind = (rows, None) ->
  exists (tuples : TupleMap) (ts : list TupleKey),
    managedPermissionsCollector store kind h = Ret ((Some tuples, None), h ++ ts) /\
    filed_by_run h tuples (h ++ ts) /\
    List.length ts = List.length (filter (fun p => is_Some (translated p)) rows).
Proof.
  intros Hq.
  pose proof (range_managed_filed h rows ∅ []) as Hrange.
  rewrite app_nil_r in Hrange.
  destruct (Hrange (filed_by_run_empty h)) as (tuples & ts & Hrun & Hinv & Hlen).
  exists tuples, ts. split; [|by split].
  unfold managedPermissionsCollector. rewrite Hq.
  by rewrite (bind_run _ _ _ _ _ Hrun).
Qed.

(** X3: [managedPermissionsCollector] leaves the tuples that were on the
    heap before the call as they were.  It adds one cell for every row that
    translates, merged or not, and none for the other rows, and every pointer
    of its map is one of the added cells. *)
Theorem managedPermissionsCollector_frame
    store kind (rows : list Permission.t) (h : Heap) :
  db.find_permissions store kind = (rows, None) ->
  exists (tuples : TupleMap) (ts : list TupleKey),
    managedPermissionsCollector store kind h = Ret ((Some tuples, None), h ++ ts) /\
    List.length ts = List.length (filter (fun p => is_Some (translated p)) rows) /\
    forall o k q, lookup2 o k tuples = Some q ->
      List.length h <= q < List.length h + List.length ts.
Proof.
  intros Hq.
  destruct (managedPermissionsCollector_filed store kind rows h Hq)
    as (tuples & ts & Hrun & [Hptr _] & Hlen).
  exists tuples, ts. split; [done|]. split; [done|].
  intros o k q Hlook. destruct (Hptr _ _ _ Hlook) as [Hrange _].
  rewrite length_app in Hrange. done.
Qed.

(** X4: in the map of [managedPermissionsCollector], every entry filed under
    an object points to a tuple with that object, also after merges, and
    every object of the map has at least one entry: the map made for an
    object before the folder check never stays empty. *)
Theorem managedPermissionsCollector_objects
    store kind (rows : list Permission.t) (h : Heap) :
  db.find_permissions store kind = (rows, None) ->
  exists (tuples : TupleMap) (h' : Heap),
    managedPermissionsCollector store kind h = Ret ((Some tuples, None), h') /\
    (forall o k q, lookup2 o k tuples = Some q ->
       exists t, h' !! q = Some t /\ openfgav1.Object t = o) /\
    (forall o inner, tuples !! o = Some inner -> inner <> ∅).
Proof.
  intros Hq.
  destruct (managedPermissionsCollector_filed store kind rows h Hq)
    as (tuples & ts & Hrun & [Hptr Hinner] & _).
  exists tuples, (h ++ ts). split; [done|]. split; [|done].
  intros o k q Hlook. by destruct (Hptr _ _ _ Hlook) as [_ Ht].
Qed.

(** *** Rows that are no folder-resource grants *)

Lemma range_file2_rows {A : Type} (f : A -> option TupleKey)
    (body : A -> TupleMap -> M Heap TupleMap) (xs : list A) :
  (forall x, x ∈ xs -> forall tuples h,
      body x tuples h
      = Ret (match f x with
             | Some t => (file2 t (List.length h) tuples, h ++ [t])
             | None => (tuples, h)
             end)) ->
  forall tuples h,
    range xs body tuples h
    = Ret (file_all file2 (List.length h) (omap f xs) tuples, h ++ omap f xs).
Proof.
  induction xs as [|x xs IH]; intros Hbody tuples h; simpl.
  - unfold ret. by rewrite app_nil_r.
  - unfold bind. rewrite Hbody by apply list_elem_of_here.
    assert (Hrest : forall x', x' ∈ xs -> forall tuples h,
               body x' tuples h
               = Ret (match f x' with
                      | Some t => (file2 t (List.length h) tuples, h ++ [t])
                      | None => (tuples, h)
                      end)).
    { intros x' Hx'. apply Hbody. by apply list_elem_of_further. }
    destruct (f x) as [t|]; simpl.
    + rewrite (IH Hrest), length_app. simpl.
      replace (List.length h + 1) with (S (List.length h)) by lia.
      by rewrite <- app_assoc.
    + by apply IH.
Qed.

(** X5: when no row of the store translates to a folder-resource tuple,
    [managedPermissionsCollector] files like the other legacy collectors: it
    allocates the translated tuples in the order of the rows, unchanged, and
    an entry under an object and a string points to the last tuple with that
    object and string. *)
Theorem managedPermissionsCollector_plain_rows
    store kind (rows : list Permission.t) (h : Heap) :
  db.find_permissions store kind = (rows, None) ->
  (forall p t, p ∈ rows -> translated p = Some t -> IsFolderResourceTuple t = false) ->
  exists tuples : TupleMap,
    managedPermissionsCollector store kind h
    = Ret ((Some tuples, None), h ++ omap translated rows) /\
    forall o k q,
      lookup2 o k tuples = Some q
      <-> last_with_key key2 (List.length h) (omap translated rows) (o, k) q.
Proof.
  intros Hq Hplain.
  exists (file_all file2 (List.length h) (omap translated rows) ∅). split.
  - unfold managedPermissionsCollector. rewrite Hq.
    rewrite (bind_run _ _ _ _ _
               (range_file2_rows translated managed_body rows
                  ltac:(intros p Hp tuples h0;
                        destruct (translated p) as [t|] eqn:Htr;
                        [rewrite (managed_body_run p t tuples h0 Htr); cbv zeta;
                         by rewrite (Hplain p t Hp Htr)
                        |by apply managed_body_skip]) ∅ h)).
    done.
  - intros o k q. apply lookup2_file_all.
Qed.

(** *** Rows that are folder-resource grants *)

Lemma lookup2_file_first2 o k t p (tuples : TupleMap) :
  lookup2 o k (file_first2 t p tuples)
  = match lookup2 o k tuples with
    | Some q => Some q
    | None => if decide ((o, k) = stripped_key2 t) then Some p else None
    end.
Proof.
  unfold file_first2, stripped_key2.
  destruct (lookup2 (openfgav1.Object t) _ tuples) as [q0|] eqn:Hq0.
  - rewrite lookup2_ensure_object.
    destruct (lookup2 o k tuples) as [q|] eqn:Hq; [done|].
    rewrite decide_False; [done|]. intros [= -> ->]. congruence.
  - rewrite lookup2_put_ensure. case_decide as Hk.
    + injection Hk as -> ->. by rewrite Hq0.
    + by destruct (lookup2 o k tuples).
Qed.

Lemma allocated_file_first2 t (tuples : TupleMap) (h h' : Heap) :
  List.length h' = S (List.length h) ->
  allocated tuples h -> allocated (file_first2 t (List.length h) tuples) h'.
Proof.
  intros Hlen Hall o k q. rewrite lookup2_file_first2.
  destruct (lookup2 o k tuples) as [q'|] eqn:Hq'.
  - intros [= <-]. apply Hall in Hq'. lia.
  - case_decide; [intros [= <-]; lia|done].
Qed.

Lemma managed_body_folder p t (tuples : TupleMap) (h : Heap) :
  translated p = Some t ->
  IsFolderResourceTuple t = true ->
  allocated tuples h ->
  exists h' : Heap,
    managed_body p tuples h = Ret (file_first2 t (List.length h) tuples, h') /\
    List.length h' = S (List.length h).
Proof.
  intros Htr Hf Hall. rewrite (managed_body_run p t tuples h Htr). cbv zeta.
  rewrite Hf. unfold file_first2.
  destruct (lookup2 _ _ tuples) as [q|] eqn:Hq.
  - pose proof (Hall _ _ _ Hq) as Hlt.
    destruct (lookup_lt_is_Some_2 h q Hlt) as [tq Htq].
    rewrite (bind_run _ _ _ _ _ (MergeFolderResourceTuples_run h q tq t Htq)).
    eexists. split; [done|]. rewrite length_app, length_insert. simpl. lia.
  - eexists. split; [done|]. rewrite length_app. simpl. lia.
Qed.

Lemma range_managed_folder (rows : list Permission.t) :
  (forall p t, p ∈ rows -> translated p = Some t -> IsFolderResourceTuple t = true) ->
  forall (tuples : TupleMap) (h : Heap),
    allocated tuples h ->
    exists h' : Heap,
      range rows managed_body tuples h
      = Ret (file_all file_first2 (List.length h) (omap translated rows) tuples, h') /\
      List.length h' = List.length h + List.length (omap translated rows).
Proof.
  induction rows as [|p rows IH]; intros Hfolder tuples h Hall; simpl.
  - exists h. split; [done|lia].
  - assert (Hrest : forall p' t, p' ∈ rows -> translated p' = Some t ->
                                 IsFolderResourceTuple t = true).
    { intros p' t Hp'. apply Hfolder. by apply list_elem_of_further. }
    destruct (translated p) as [t|] eqn:Htr; simpl.
    + destruct (managed_body_folder p t tuples h Htr
                  (Hfolder p t (list_elem_of_here _ _) Htr) Hall) as (h1 & Hrun & Hlen).
      rewrite (bind_run _ _ _ _ _ Hrun).
      destruct (IH Hrest _ h1 (allocated_file_first2 t tuples h h1 Hlen Hall))
        as (h' & Hrun' & Hlen').
      exists h'. rewrite Hlen in Hrun', Hlen'. split; [done|].
      change (list_omap Permission.t TupleKey translated rows)
        with (omap translated rows). lia.
    + rewrite (bind_run _ _ _ _ _ (managed_body_skip p tuples h Htr)).
      by apply IH.
Qed.

Lemma managed_body_folder_keyed p t (tuples : TupleMap) (h : Heap) :
  translated p = Some t ->
  IsFolderResourceTuple t = true ->
  keyed_stripped tuples h ->
  exists (tuples' : TupleMap) (h' : Heap),
    managed_body p tuples h = Ret (tuples', h') /\ keyed_stripped tuples' h'.
Proof.
  intros Htr Hf Hkeyed. rewrite (managed_body_run p t tuples h Htr). cbv zeta.
  rewrite Hf. destruct (lookup2 _ _ tuples) as [q|] eqn:Hq.
  - destruct (Hkeyed _ _ _ Hq) as (tq & Htq & Hkq).
    rewrite (bind_run _ _ _ _ _ (MergeFolderResourceTuples_run h q tq t Htq)).
    rewrite (ensure_object_present _ _ _ _ Hq).
    eexists _, _. split; [done|].
    intros o k q' Hq'. destruct (Hkeyed _ _ _ Hq') as (t' & Ht' & Hk').
    destruct (decide (q' = q)) as [->|Hne].
    + eexists. split.
      * apply lookup_app_l_Some, list_lookup_insert_eq. by eapply lookup_lt_Some.
      * simplify_eq. done.
    + exists t'. split; [|done].
      apply lookup_app_l_Some. by rewrite list_lookup_insert_ne.
  - eexists _, _. split; [done|].
    intros o k q'. rewrite lookup2_put_ensure. case_decide as Hk.
    + intros [= <-]. injection Hk as -> ->. exists t. split; [apply lookup_fresh|done].
    + intros Hq'. destruct (Hkeyed _ _ _ Hq') as (t' & Ht' & Hk').
      exists t'. split; [by apply lookup_app_l_Some|done].
Qed.

Lemma range_managed_folder_keyed (rows : list Permission.t) :
  (forall p t, p ∈ rows -> translated p = Some t -> IsFolderResourceTuple t = true) ->
  forall (tuples : TupleMap) (h : Heap),
    keyed_stripped tuples h ->
    exists (tuples' : TupleMap) (h' : Heap),
      range rows managed_body tuples h = Ret (tuples', h') /\ keyed_stripped tuples' h'.
Proof.
  induction rows as [|p rows IH]; intros Hfolder tuples h Hkeyed; simpl.
  - by exists tuples, h.
  - assert (Hrest : forall p' t, p' ∈ rows -> translated p' = Some t ->
                                 IsFolderResourceTuple t = true).
    { intros p' t Hp'. apply Hfolder. by apply list_elem_of_further. }
    destruct (translated p) as [t|] eqn:Htr.
    + destruct (managed_body_folder_keyed p t tuples h Htr
                  (Hfolder p t (list_elem_of_here _ _) Htr) Hkeyed)
        as (tuples1 & h1 & Hrun & Hkeyed1).
      rewrite (bind_run _ _ _ _ _ Hrun). by apply IH.
    + rewrite (bind_run _ _ _ _ _ (managed_body_skip p tuples h Htr)). by apply IH.
Qed.

(** X10: when every row that translates gives a folder-resource tuple, the
    keys of the map of [managedPermissionsCollector] can be recomputed from
    the tuples it holds, also after merges: an entry under object [o] and key
    [k] points to a tuple with object [o], and [tupleStringWithoutCondition]
    on that pointer returns [k] and leaves the heap as it is. *)
Theorem managedPermissionsCollector_keys_recomputed
    store kind (rows : list Permission.t) (h : Heap) :
  db.find_permissions store kind = (rows, None) ->
  (forall p t, p ∈ rows -> translated p = Some t -> IsFolderResourceTuple t = true) ->
  exists (tuples : TupleMap) (h' : Heap),
    managedPermissionsCollector store kind h = Ret ((Some tuples, None), h') /\
    forall o k q, lookup2 o k tuples = Some q ->
      (exists t, h' !! q = Some t /\ openfgav1.Object t = o) /\
      tupleStringWithoutCondition q h' = Ret (k, h').
Proof.
  intros Hq Hfolder.
  destruct (range_managed_folder_keyed rows Hfolder ∅ h) as (tuples & h' & Hrun & Hkeyed).
  { intros o k q. by rewrite lookup2_empty. }
  exists tuples, h'. split.
  - unfold managedPermissionsCollector. rewrite Hq.
    by rewrite (bind_run _ _ _ _ _ Hrun).
  - intros o k q Hlook. destruct (Hkeyed _ _ _ Hlook) as (t & Ht & Hk).
    injection Hk as Ho Hs. split; [by exists t|].
    rewrite (tupleStringWithoutCondition_run _ _ _ Ht). by rewrite Hs.
Qed.

(** ** One key of the managed permissions, through all the rows *)

Lemma merged_nil (cell : TupleKey) : merged cell [] = cell.
Proof. unfold merged. simpl. apply with_Condition_same. Qed.

Lemma merged_cons (cell t : TupleKey) ms :
  merged cell (t :: ms)
  = merged (with_Condition (zanzana.merge_condition (Condition cell) (Condition t)) cell) ms.
Proof. done. Qed.

Lemma unfiled_only_under K q (tuples : TupleMap) : unfiled q tuples -> only_under K q tuples.
Proof. intros Hun o k Hq. by destruct (Hun o k). Qed.

Lemma key_kept_empty K (h : Heap) : key_kept K ∅ h.
Proof.
  split; [apply allocated_empty|]. intros q. by rewrite lookup2_empty.
Qed.

(** A fresh cell filed under a key other than [K]. *)
Lemma fresh_entry_off K Km t (tuples tuples' : TupleMap) (h : Heap) :
  Km <> K ->
  (forall o k, lookup2 o k tuples'
               = if decide ((o, k) = Km) then Some (List.length h) else lookup2 o k tuples) ->
  key_kept K tuples h ->
  key_kept K tuples' (h ++ [t]) /\
  lookup2 K.1 K.2 tuples' = lookup2 K.1 K.2 tuples /\
  (forall q cell, h !! q = Some cell -> only_under K q tuples ->
     (h ++ [t]) !! q = Some cell /\ only_under K q tuples') /\
  (forall q, q < List.length h -> unfiled q tuples -> unfiled q tuples').
Proof.
  intros Hne Hlook [Hall Honly].
  assert (HK : lookup2 K.1 K.2 tuples' = lookup2 K.1 K.2 tuples).
  { rewrite Hlook. rewrite decide_False; [done|]. destruct K. simpl. congruence. }
  assert (Hcells : forall q cell, h !! q = Some cell -> only_under K q tuples ->
            (h ++ [t]) !! q = Some cell /\ only_under K q tuples').
  { intros q cell Hq Hq_only. split; [by apply lookup_app_l_Some|].
    intros o k. rewrite Hlook. case_decide.
    - intros [= <-]. apply lookup_lt_Some in Hq. lia.
    - apply Hq_only. }
  split; [|split; [done|split; [done|]]].
  - split.
    + intros o k q. rewrite Hlook, length_app. simpl. case_decide.
      * intros [= <-]. lia.
      * intros Hq. apply Hall in Hq. lia.
    + intros q. rewrite HK. intros Hq.
      pose proof (Hall _ _ _ Hq) as Hlt.
      destruct (lookup_lt_is_Some_2 h q Hlt) as [cell Hcell].
      by destruct (Hcells q cell Hcell (Honly q Hq)).
  - intros q Hlt Hun o k. rewrite Hlook. case_decide.
    + intros [= <-]. lia.
    + apply Hun.
Qed.

(** A row whose tuple is not merged under [K]. *)
Lemma managed_step_off K p t (tuples : TupleMap) (h : Heap) :
  translated p = Some t ->
  ~ merges_under K t ->
  (IsFolderResourceTuple t = false -> key2 t <> K) ->
  key_kept K tuples h ->
  exists (tuples' : TupleMap) (h' : Heap),
    managed_body p tuples h = Ret (tuples', h') /\
    List.length h' = S (List.length h) /\
    key_kept K tuples' h' /\
    lookup2 K.1 K.2 tuples' = lookup2 K.1 K.2 tuples /\
    (forall q cell, h !! q = Some cell -> only_under K q tuples ->
       h' !! q = Some cell /\ only_under K q tuples') /\
    (forall q, q < List.length h -> unfiled q tuples -> unfiled q tuples').
Proof.
  intros Htr Hoff Hplain Hkept. rewrite (managed_body_run p t tuples h Htr). cbv zeta.
  destruct (IsFolderResourceTuple t) eqn:Hf.
  - assert (Hne : stripped_key2 t <> K) by (intros Hk; by apply Hoff).
    destruct (lookup2 _ _ tuples) as [q'|] eqn:Hq'.
    + destruct Hkept as [Hall Honly].
      pose proof (Hall _ _ _ Hq') as Hlt.
      destruct (lookup_lt_is_Some_2 h q' Hlt) as [tq Htq].
      rewrite (bind_run _ _ _ _ _ (MergeFolderResourceTuples_run h q' tq t Htq)).
      rewrite (ensure_object_present _ _ _ _ Hq').
      eexists _, _. split; [done|].
      split; [rewrite length_app, length_insert; simpl; lia|].
      assert (Hcells : forall q cell, h !! q = Some cell -> only_under K q tuples ->
                (<[q' := with_Condition
                           (zanzana.merge_condition (Condition tq) (Condition t)) tq]> h
                 ++ [t]) !! q = Some cell /\ only_under K q tuples).
      { intros q cell Hq Hq_only. split; [|done].
        apply lookup_app_l_Some. rewrite list_lookup_insert_ne; [done|].
        intros ->. apply Hne. unfold stripped_key2. by apply Hq_only. }
      split; [|split; [done|split; [done|done]]].
      split; [|done].
      intros o k q Hq. apply Hall in Hq. rewrite length_app, length_insert. lia.
    + pose proof (fresh_entry_off K (stripped_key2 t) t tuples
                    (put (openfgav1.Object t) (TupleKey_String (with_Condition None t))
                       (List.length h) (ensure_object (openfgav1.Object t) tuples))
                    h Hne (fun o k => lookup2_put_ensure o k _ _ _ tuples) Hkept)
        as (Hkept' & HK & Hcells & Hun).
      eexists _, _. split; [done|]. split; [rewrite length_app; simpl; lia|]. done.
  - pose proof (fresh_entry_off K (key2 t) t tuples (file2 t (List.length h) tuples)
                  h (Hplain eq_refl) (fun o k => lookup2_file2 o k t _ tuples) Hkept)
      as (Hkept' & HK & Hcells & Hun).
    eexists _, _. split; [done|]. split; [rewrite length_app; simpl; lia|]. done.
Qed.

(** The first row whose tuple is merged under [K]. *)
Lemma managed_step_new K p t (tuples : TupleMap) (h : Heap) :
  translated p = Some t ->
  merges_under K t ->
  lookup2 K.1 K.2 tuples = None ->
  key_kept K tuples h ->
  exists tuples' : TupleMap,
    managed_body p tuples h = Ret (tuples', h ++ [t]) /\
    key_kept K tuples' (h ++ [t]) /\
    lookup2 K.1 K.2 tuples' = Some (List.length h) /\
    (forall q, q < List.length h -> unfiled q tuples -> unfiled q tuples').
Proof.
  intros Htr [Hf <-] Hnone [Hall Honly]. rewrite (managed_body_run p t tuples h Htr).
  cbv zeta. rewrite Hf. unfold stripped_key2 in Hnone. simpl in Hnone. rewrite Hnone.
  eexists. split; [done|].
  assert (Hall' : allocated
            (put (openfgav1.Object t) (TupleKey_String (with_Condition None t))
               (List.length h) (ensure_object (openfgav1.Object t) tuples)) (h ++ [t])).
  { intros o k q. rewrite lookup2_put_ensure, length_app. simpl.
    case_decide; [intros [= <-]; lia|]. intros Hq. apply Hall in Hq. lia. }
  split; [|split].
  - split; [done|]. unfold stripped_key2. simpl. intros q.
    rewrite lookup2_put_ensure, decide_True by done. intros [= <-] o k.
    rewrite lookup2_put_ensure. case_decide; [done|].
    intros Hq. apply Hall in Hq. lia.
  - unfold stripped_key2. simpl. by rewrite lookup2_put_ensure, decide_True.
  - intros q Hlt Hun o k. rewrite lookup2_put_ensure. case_decide.
    + intros [= <-]. lia.
    + apply Hun.
Qed.

(** A later row whose tuple is merged under [K]. *)
Lemma managed_step_merge K p t q cell (tuples : TupleMap) (h : Heap) :
  translated p = Some t ->
  merges_under K t ->
  lookup2 K.1 K.2 tuples = Some q ->
  h !! q = Some cell ->
  managed_body p tuples h
  = Ret (tuples,
         <[q := with_Condition
                  (zanzana.merge_condition (Condition cell) (Condition t)) cell]> h
         ++ [t]).
Proof.
  intros Htr [Hf <-] Hq Hcell. rewrite (managed_body_run p t tuples h Htr).
  cbv zeta. rewrite Hf. unfold stripped_key2 in Hq. simpl in Hq. rewrite Hq.
  rewrite (bind_run _ _ _ _ _ (MergeFolderResourceTuples_run h q cell t Hcell)).
  by rewrite (ensure_object_present _ _ _ _ Hq).
Qed.

(** What the rows do to the key [K], from any state that keeps it: the
    entry under [K] goes to the first tuple merged under [K], which ends as
    that tuple with the conditions of the later ones merged in, in order; the
    later ones stay as they were, without entry. *)
Lemma range_managed_key K (rows : list Permission.t) :
  (forall p t, p ∈ rows -> translated p = Some t ->
     IsFolderResourceTuple t = false -> key2 t <> K) ->
  forall (tuples : TupleMap) (h : Heap),
    key_kept K tuples h ->
    exists (tuples' : TupleMap) (h' : Heap),
      range rows managed_body tuples h = Ret (tuples', h') /\
      List.length h' = List.length h + List.length (omap translated rows) /\
      key_kept K tuples' h' /\
      (forall q cell, h !! q = Some cell -> unfiled q tuples ->
         h' !! q = Some cell /\ unfiled q tuples') /\
      (forall q cell, lookup2 K.1 K.2 tuples = Some q -> h !! q = Some cell ->
         lookup2 K.1 K.2 tuples' = Some q /\
         h' !! q = Some (merged cell (filter (merges_under K) (omap translated rows)))) /\
      (lookup2 K.1 K.2 tuples = None ->
         match filter (merges_under K) (omap translated rows) with
         | [] => lookup2 K.1 K.2 tuples' = None
         | m0 :: ms =>
             exists i,
               omap translated rows !! i = Some m0 /\
               (forall j t, j < i -> omap translated rows !! j = Some t ->
                            ~ merges_under K t) /\
               lookup2 K.1 K.2 tuples' = Some (List.length h + i) /\
               h' !! (List.length h + i) = Some (merged m0 ms)
         end) /\
      (forall i t, omap translated rows !! i = Some t -> merges_under K t ->
         lookup2 K.1 K.2 tuples' <> Some (List.length h + i) ->
         h' !! (List.length h + i) = Some t /\ unfiled (List.length h + i) tuples').
Proof.
  induction rows as [|p rows IH]; intros Hplain tuples h Hkept.
  { exists tuples, h. simpl. split; [done|]. split; [lia|]. split; [done|].
    split; [done|]. split; [|split; [done|done]].
    intros q cell Hq Hcell. by rewrite merged_nil. }
  assert (Hrest : forall p' t, p' ∈ rows -> translated p' = Some t ->
                    IsFolderResourceTuple t = false -> key2 t <> K).
  { intros p' t Hp'. apply Hplain. by apply list_elem_of_further. }
  destruct (translated p) as [t|] eqn:Htr.
  2:{ destruct (IH Hrest tuples h Hkept) as (tuples' & h' & Hrun & Hrest').
      exists tuples', h'. cbn [range omap list_omap]. rewrite Htr.
      rewrite (bind_run _ _ _ _ _ (managed_body_skip p tuples h Htr)).
      split; [done|]. exact Hrest'. }
  assert (Homap : omap translated (p :: rows) = t :: omap translated rows).
  { cbn [omap list_omap]. by rewrite Htr. }
  rewrite Homap. cbn [range].
  destruct (decide (merges_under K t)) as [Hon|Hoff].
  - rewrite filter_cons_True by done.
    destruct (lookup2 K.1 K.2 tuples) as [q0|] eqn:HK.
    + (* merged into the entry that is there *)
      destruct Hkept as [Hall Honly].
      pose proof (Hall _ _ _ HK) as Hlt.
      destruct (lookup_lt_is_Some_2 h q0 Hlt) as [cell0 Hcell0].
      set (cell1 := with_Condition
                      (zanzana.merge_condition (Condition cell0) (Condition t)) cell0).
      pose proof (managed_step_merge K p t q0 cell0 tuples h Htr Hon HK Hcell0) as Hstep.
      fold cell1 in Hstep. set (h1 := <[q0 := cell1]> h ++ [t]) in *.
      assert (Hlen1 : List.length h1 = S (List.length h)).
      { unfold h1. rewrite length_app, length_insert. simpl. lia. }
      assert (Hkept1 : key_kept K tuples h1).
      { split; [|done]. intros o k q Hq. apply Hall in Hq. lia. }
      destruct (IH Hrest tuples h1 Hkept1)
        as (tuples' & h' & Hrun & Hlen & Hkept' & Hunf & Hentry & _ & Hlater).
      exists tuples', h'. rewrite (bind_run _ _ _ _ _ Hstep).
      split; [done|]. split; [simpl; lia|]. split; [done|].
      assert (Hnew : h1 !! List.length h = Some t).
      { unfold h1. rewrite <- (length_insert h q0 cell1). apply lookup_fresh. }
      assert (Hnew_unf : unfiled (List.length h) tuples).
      { intros o k Hq. apply Hall in Hq. lia. }
      split; [|split; [|split]].
      * intros q cell Hq Hun. apply Hunf; [|done].
        unfold h1. apply lookup_app_l_Some. rewrite list_lookup_insert_ne; [done|].
        intros ->. by destruct (Hun K.1 K.2).
      * intros q cell [= <-] Hcell. simplify_eq.
        destruct (Hentry q0 cell1 HK) as [HK' Hcell'].
        { unfold h1. apply lookup_app_l_Some, list_lookup_insert_eq. lia. }
        split; [done|]. by rewrite merged_cons.
      * done.
      * intros [|i] t' Hi Hon' Hne; simpl in Hi.
        -- simplify_eq. rewrite Nat.add_0_r. by apply Hunf.
        -- rewrite Hlen1 in Hlater.
           replace (List.length h + S i) with (S (List.length h) + i) by lia.
           apply Hlater; [done|done|].
           by replace (S (List.length h) + i) with (List.length h + S i) by lia.
    + (* the first tuple under the key *)
      destruct (managed_step_new K p t tuples h Htr Hon HK Hkept)
        as (tuples1 & Hstep & Hkept1 & HK1 & Hunf1).
      destruct (IH Hrest tuples1 (h ++ [t]) Hkept1)
        as (tuples' & h' & Hrun & Hlen & Hkept' & Hunf & Hentry & _ & Hlater).
      exists tuples', h'. rewrite (bind_run _ _ _ _ _ Hstep).
      rewrite length_app in Hlen, Hlater. simpl in Hlen, Hlater.
      split; [done|]. split; [simpl; lia|]. split; [done|].
      destruct (Hentry (List.length h) t HK1 (lookup_fresh h t)) as [HK' Hcell'].
      split; [|split; [|split]].
      * intros q cell Hq Hun. apply Hunf; [by apply lookup_app_l_Some|].
        apply Hunf1; [by eapply lookup_lt_Some|done].
      * intros q cell Hq. discriminate.
      * intros _. exists 0. rewrite Nat.add_0_r. split; [done|].
        split; [intros j t' Hj; lia|]. by split.
      * intros [|i] t' Hi Hon' Hne; simpl in Hi.
        -- rewrite Nat.add_0_r in Hne. done.
        -- replace (List.length h + S i) with (List.length h + 1 + i) by lia.
           apply Hlater; [done|done|].
           by replace (List.length h + 1 + i) with (List.length h + S i) by lia.
  - rewrite filter_cons_False by done.
    destruct (managed_step_off K p t tuples h Htr Hoff
                (Hplain p t (list_elem_of_here _ _) Htr) Hkept)
      as (tuples1 & h1 & Hstep & Hlen1 & Hkept1 & HK1 & Hcells1 & Hunf1).
    destruct (IH Hrest tuples1 h1 Hkept1)
      as (tuples' & h' & Hrun & Hlen & Hkept' & Hunf & Hentry & Hfirst & Hlater).
    exists tuples', h'. rewrite (bind_run _ _ _ _ _ Hstep).
    rewrite Hlen1 in Hlen, Hfirst, Hlater.
    split; [done|]. split; [simpl; lia|]. split; [done|].
    split; [|split; [|split]].
    * intros q cell Hq Hun.
      destruct (Hcells1 q cell Hq (unfiled_only_under K q tuples Hun)) as [Hq1 _].
      apply Hunf; [done|]. apply Hunf1; [by eapply lookup_lt_Some|done].
    * intros q cell Hq Hcell. destruct Hkept as [Hall Honly].
      destruct (Hcells1 q cell Hcell (Honly q Hq)) as [Hq1 _].
      apply Hentry; [by rewrite HK1|done].
    * intros HK. rewrite <- HK1 in HK. specialize (Hfirst HK).
      destruct (filter (merges_under K) (omap translated rows)) as [|m0 ms]; [done|].
      destruct Hfirst as (i & Hi & Hbefore & HK' & Hcell').
      exists (S i). split; [done|]. split.
      { intros [|j] t' Hlt Hj; simpl in Hj; [by simplify_eq|].
        apply (Hbefore j t'); [lia|done]. }
      replace (List.length h + S i) with (S (List.length h) + i) by lia. by split.
    * intros [|i] t' Hi Hon' Hne; simpl in Hi; [by simplify_eq|].
      replace (List.length h + S i) with (S (List.length h) + i) by lia.
      apply Hlater; [done|done|].
      by replace (S (List.length h) + i) with (List.length h + S i) by lia.
Qed.

Lemma groups_of_merge a b :
  groups_of (zanzana.merge_condition a b) = groups_of a ∪ groups_of b.
Proof.
  destruct a as [ca|], b as [cb|]; simpl; [done| | |].
  - by rewrite (right_id_L ∅ (∪)).
  - by rewrite (left_id_L ∅ (∪)).
  - by rewrite (left_id_L ∅ (∪)).
Qed.

Lemma groups_of_merged g (c0 : option RelationshipCondition) cs :
  g ∈ groups_of (foldl zanzana.merge_condition c0 cs)
  <-> g ∈ groups_of c0 \/ exists c, c ∈ cs /\ g ∈ groups_of c.
Proof.
  revert c0. induction cs as [|c cs IH]; intros c0; simpl.
  - split; [by left|]. intros [Hg|(c & Hc & _)]; [done|]. by apply elem_of_nil in Hc.
  - rewrite IH, groups_of_merge, elem_of_union. split.
    + intros [[Hg|Hg]|(c' & Hc' & Hg)]; [by left| |].
      * right. exists c. split; [apply list_elem_of_here|done].
      * right. exists c'. split; [by apply list_elem_of_further|done].
    + intros [Hg|(c' & Hc' & Hg)]; [by left; left|].
      apply elem_of_cons in Hc' as [->|Hc']; [by left; right|].
      right. by exists c'.
Qed.

(** A group of a tuple among [m0 :: ms] is a group of [merged m0 ms]. *)
Lemma merged_carries m0 ms t c g :
  t ∈ m0 :: ms -> Condition t = Some c -> g ∈ group_resources c ->
  exists c', Condition (merged m0 ms) = Some c' /\ g ∈ group_resources c'.
Proof.
  intros Hin Hc Hg.
  assert (Hgroups : g ∈ groups_of (Condition (merged m0 ms))).
  { unfold merged. simpl. apply groups_of_merged.
    apply elem_of_cons in Hin as [->|Hin].
    - left. by rewrite Hc.
    - right. exists (Some c). split; [|done].
      apply list_elem_of_fmap. exists t. by split. }
  destruct (Condition (merged m0 ms)) as [c'|]; [by exists c'|].
  simpl in Hgroups. set_solver.
Qed.

Lemma filter_none {A : Type} (P : A -> Prop) `{forall x, Decision (P x)} (l : list A) :
  (forall x, x ∈ l -> ~ P x) -> filter P l = [].
Proof.
  induction l as [|x l IH]; intros Hno; [done|].
  rewrite filter_cons_False by (apply Hno, list_elem_of_here).
  apply IH. intros y Hy. apply Hno. by apply list_elem_of_further.
Qed.

(** The two key spaces of the map do not meet when the string of a tuple
    determines the tuple and the condition plays no part in what a
    folder-resource tuple is: no tuple that is not a folder-resource grant
    is then filed under the string without condition of one that is. *)
Lemma plain_key_off_stripped_key (t t1 : TupleKey) :
  (forall a b : TupleKey, TupleKey_String a = TupleKey_String b -> a = b) ->
  (forall (a : TupleKey) c,
      IsFolderResourceTuple (with_Condition c a) = IsFolderResourceTuple a) ->
  IsFolderResourceTuple t = false ->
  IsFolderResourceTuple t1 = true ->
  key2 t <> stripped_key2 t1.
Proof.
  intros Hinj Hcond Hf Hf1 [= _ Hs]. apply Hinj in Hs. subst t.
  rewrite Hcond in Hf. congruence.
Qed.

(** C1: in any store, take two managed-permission rows [p1], before, and
    [p2], after, that translate to folder-scoped resource grants with the
    same subject, object and relation, one for the resource group [g1] and
    one for [g2]; no row that is not a folder-resource grant is filed under
    the string of these grants without condition.  Then the map has one entry
    under the object and that string.  The tuple it points to has this entry
    only, and its condition carries [g1] and [g2]; the tuple of [p2] is left
    as it was and has no entry.  When no other row is a folder-resource grant
    with that object and string, the entry points to the tuple of [p1], with
    the condition set [{g1, g2}]. *)
Theorem managedPermissionsCollector_merges_folder_grants
    store kind pre p1 mid p2 post t1 t2 g1 g2 (h : Heap) :
  db.find_permissions store kind = (pre ++ p1 :: mid ++ p2 :: post, None) ->
  translated p1 = Some t1 ->
  translated p2 = Some t2 ->
  IsFolderResourceTuple t1 = true ->
  IsFolderResourceTuple t2 = true ->
  User t1 = User t2 ->
  openfgav1.Object t1 = openfgav1.Object t2 ->
  Relation t1 = Relation t2 ->
  Condition t1 = Some (mkCondition {[g1]}) ->
  Condition t2 = Some (mkCondition {[g2]}) ->
  (forall p t, p ∈ pre ++ mid ++ post -> translated p = Some t ->
     IsFolderResourceTuple t = false -> key2 t <> stripped_key2 t1) ->
  exists (tuples : TupleMap) (h' : Heap) (q : loc) (t : TupleKey) c,
    managedPermissionsCollector store kind h = Ret ((Some tuples, None), h') /\
    lookup2 (openfgav1.Object t1) (TupleKey_String (with_Condition None t1)) tuples
    = Some q /\
    (forall o k, lookup2 o k tuples = Some q -> (o, k) = stripped_key2 t1) /\
    h' !! q = Some t /\
    openfgav1.Object t = openfgav1.Object t1 /\
    TupleKey_String (with_Condition None t) = TupleKey_String (with_Condition None t1) /\
    Condition t = Some c /\
    g1 ∈ group_resources c /\ g2 ∈ group_resources c /\
    q <> List.length h + List.length (omap translated (pre ++ p1 :: mid)) /\
    h' !! (List.length h + List.length (omap translated (pre ++ p1 :: mid))) = Some t2 /\
    (forall o k,
        lookup2 o k tuples
        <> Some (List.length h + List.length (omap translated (pre ++ p1 :: mid)))) /\
    ((forall p t, p ∈ pre ++ mid ++ post -> translated p = Some t ->
        IsFolderResourceTuple t = true -> stripped_key2 t <> stripped_key2 t1) ->
     q = List.length h + List.length (omap translated pre) /\
     t = with_Condition (Some (mkCondition {[g1; g2]})) t1).
Proof.
  intros Hq Htr1 Htr2 Hf1 Hf2 Hu Ho Hr Hc1 Hc2 Hplain.
  set (K := stripped_key2 t1).
  set (rows := pre ++ p1 :: mid ++ p2 :: post).
  assert (Hon1 : merges_under K t1) by done.
  assert (Hon2 : merges_under K t2).
  { split; [done|]. unfold K, stripped_key2, with_Condition. by rewrite Hu, Ho, Hr. }
  assert (Hplain_all : forall p t, p ∈ rows -> translated p = Some t ->
            IsFolderResourceTuple t = false -> key2 t <> K).
  { intros p t Hp Htr Hf. unfold rows in Hp.
    apply elem_of_app in Hp as [Hp|Hp].
    { apply (Hplain p t); [|done|done]. apply elem_of_app. by left. }
    apply elem_of_cons in Hp as [->|Hp]; [congruence|].
    apply elem_of_app in Hp as [Hp|Hp].
    { apply (Hplain p t); [|done|done]. apply elem_of_app. right.
      apply elem_of_app. by left. }
    apply elem_of_cons in Hp as [->|Hp]; [congruence|].
    apply (Hplain p t); [|done|done]. apply elem_of_app. right.
    apply elem_of_app. by right. }
  destruct (range_managed_key K rows Hplain_all ∅ h (key_kept_empty K h))
    as (tuples & h' & Hrun & Hlen & [Hall' Honly'] & Hunf & _ & Hfirst & Hlater).
  specialize (Hfirst (lookup2_empty _ _)).
  set (tsa := omap translated pre) in *.
  set (tsm := omap translated mid) in *.
  set (tsp := omap translated post) in *.
  assert (Hts : omap translated rows = tsa ++ t1 :: tsm ++ t2 :: tsp).
  { unfold rows. rewrite omap_app. cbn [omap list_omap]. rewrite Htr1.
    fold (omap translated (mid ++ p2 :: post)). rewrite omap_app.
    cbn [omap list_omap]. by rewrite Htr2. }
  assert (Hts2 : omap translated (pre ++ p1 :: mid) = tsa ++ t1 :: tsm).
  { rewrite omap_app. cbn [omap list_omap]. by rewrite Htr1. }
  rewrite Hts2. rewrite Hts in Hfirst, Hlater.
  set (i1 := List.length tsa).
  set (i2 := List.length (tsa ++ t1 :: tsm)).
  assert (Hi1 : (tsa ++ t1 :: tsm ++ t2 :: tsp) !! i1 = Some t1)
    by (by apply list_lookup_middle).
  assert (Hi2 : (tsa ++ t1 :: tsm ++ t2 :: tsp) !! i2 = Some t2).
  { replace (tsa ++ t1 :: tsm ++ t2 :: tsp) with ((tsa ++ t1 :: tsm) ++ t2 :: tsp)
      by (by rewrite <- app_assoc).
    by apply list_lookup_middle. }
  assert (Hi12 : i1 < i2) by (unfold i1, i2; rewrite length_app; simpl; lia).
  destruct (filter (merges_under K) (tsa ++ t1 :: tsm ++ t2 :: tsp))
    as [|m0 ms] eqn:Hfilter.
  { exfalso. apply (filter_nil_not_elem_of _ _ t1 Hfilter Hon1).
    apply elem_of_app. right. apply list_elem_of_here. }
  destruct Hfirst as (i & Hi & Hbefore & HK & Hcell).
  assert (Hle : i <= i1).
  { destruct (decide (i <= i1)) as [|Hgt]; [done|].
    exfalso. apply (Hbefore i1 t1); [lia|done|done]. }
  assert (Hin1 : t1 ∈ m0 :: ms).
  { rewrite <- Hfilter. apply list_elem_of_filter. split; [done|].
    apply elem_of_app. right. apply list_elem_of_here. }
  assert (Hin2 : t2 ∈ m0 :: ms).
  { rewrite <- Hfilter. apply list_elem_of_filter. split; [done|].
    apply elem_of_app. right. apply list_elem_of_further.
    apply elem_of_app. right. apply list_elem_of_here. }
  assert (Hm0 : merges_under K m0).
  { assert (Hm : m0 ∈ filter (merges_under K) (tsa ++ t1 :: tsm ++ t2 :: tsp))
      by (rewrite Hfilter; apply list_elem_of_here).
    by apply list_elem_of_filter in Hm as [Hm _]. }
  destruct Hm0 as [_ Hm0]. injection Hm0 as Hm0o Hm0s.
  destruct (merged_carries m0 ms t1 _ g1 Hin1 Hc1) as (c & Hc & Hg1); [set_solver|].
  destruct (merged_carries m0 ms t2 _ g2 Hin2 Hc2) as (c' & Hc' & Hg2); [set_solver|].
  rewrite Hc in Hc'. injection Hc' as <-.
  destruct (Hlater i2 t2 Hi2 Hon2) as [Hcell2 Hunf2].
  { rewrite HK. intros [= Heq]. lia. }
  exists tuples, h', (List.length h + i), (merged m0 ms), c.
  split.
  { unfold managedPermissionsCollector. rewrite Hq.
    by rewrite (bind_run _ _ _ _ _ Hrun). }
  split; [exact HK|]. split; [exact (Honly' _ HK)|]. split; [done|].
  split; [done|]. split; [done|]. split; [done|]. split; [done|]. split; [done|].
  split; [fold i2; lia|]. split; [done|]. split; [done|].
  intros Hexact.
  assert (Hoff : forall l, (forall p, p ∈ l -> p ∈ pre ++ mid ++ post) ->
            filter (merges_under K) (omap translated l) = []).
  { intros l Hl. apply filter_none. intros t Ht [Hf Hk].
    apply list_elem_of_omap in Ht as (p & Hp & Htr).
    by apply (Hexact p t (Hl p Hp) Htr Hf). }
  assert (Hfa : filter (merges_under K) tsa = []).
  { apply Hoff. intros p Hp. apply elem_of_app. by left. }
  assert (Hfm : filter (merges_under K) tsm = []).
  { apply Hoff. intros p Hp. apply elem_of_app. right. apply elem_of_app. by left. }
  assert (Hfp : filter (merges_under K) tsp = []).
  { apply Hoff. intros p Hp. apply elem_of_app. right. apply elem_of_app. by right. }
  rewrite filter_app, Hfa, filter_cons_True, filter_app, Hfm, filter_cons_True, Hfp
    in Hfilter by done.
  simpl in Hfilter. injection Hfilter as <- <-.
  assert (Hieq : i = i1).
  { destruct (decide (i = i1)) as [|Hne]; [done|]. exfalso.
    assert (Hlt : i < i1) by lia.
    rewrite lookup_app_l in Hi by done.
    apply (filter_nil_not_elem_of _ _ t1 Hfa Hon1).
    apply list_elem_of_lookup. by exists i. }
  split; [by rewrite Hieq|].
  unfold merged. simpl. by rewrite Hc1, Hc2.
Qed.

Lemma range_app {St A B : Type} (l1 l2 : list A) (body : A -> B -> M St B) acc s :
  range (l1 ++ l2) body acc s
  = bind (range l1 body acc) (fun acc' => range l2 body acc') s.
Proof.
  revert acc s. induction l1 as [|x l1 IH]; intros acc s; [reflexivity|].
  simpl. unfold bind in *. destruct (body x acc s) as [[acc1 s1]| |]; [|done|done].
  apply IH.
Qed.

(** One row of the managed permissions never takes a tuple or an entry away:
    the cells of the heap keep their subject, relation and object, and a key
    that has an entry keeps one.  A row that translates adds one cell, which
    holds its tuple, with an entry under the key of that tuple. *)
Lemma managed_body_grows p (tuples : TupleMap) (h : Heap) :
  allocated tuples h ->
  exists (tuples' : TupleMap) (h' : Heap),
    managed_body p tuples h = Ret (tuples', h') /\
    allocated tuples' h' /\
    List.length h' = List.length h + List.length (omap translated [p]) /\
    (forall q cell, h !! q = Some cell ->
       exists cell', h' !! q = Some cell' /\
         with_Condition None cell' = with_Condition None cell) /\
    (forall o k, is_Some (lookup2 o k tuples) -> is_Some (lookup2 o k tuples')) /\
    (forall t, translated p = Some t ->
       h' !! List.length h = Some t /\
       is_Some (lookup2 (openfgav1.Object t) (canonical_key t) tuples')).
Proof.
  intros Hall. cbn [omap list_omap]. destruct (translated p) as [t|] eqn:Htr.
  2:{ exists tuples, h. split; [by apply managed_body_skip|]. split; [done|].
      split; [simpl; lia|]. split; [intros q cell Hq; by exists cell|]. by split. }
  rewrite (managed_body_run p t tuples h Htr). cbv zeta.
  destruct (IsFolderResourceTuple t) eqn:Hf.
  - destruct (lookup2 _ _ tuples) as [q|] eqn:Hq.
    + pose proof (Hall _ _ _ Hq) as Hlt.
      destruct (lookup_lt_is_Some_2 h q Hlt) as [tq Htq].
      rewrite (bind_run _ _ _ _ _ (MergeFolderResourceTuples_run h q tq t Htq)).
      eexists _, _. split; [done|]. split.
      { intros o k q'. rewrite lookup2_ensure_object. intros Hq'.
        apply Hall in Hq'. rewrite length_app, length_insert. lia. }
      split; [rewrite length_app, length_insert; simpl; lia|]. split.
      { intros q' cell Hcell. destruct (decide (q' = q)) as [->|Hne].
        - eexists. split.
          + apply lookup_app_l_Some. apply list_lookup_insert_eq. lia.
          + rewrite with_Condition_twice. congruence.
        - exists cell. split; [|done].
          apply lookup_app_l_Some. by rewrite list_lookup_insert_ne. }
      split.
      { intros o k. by rewrite lookup2_ensure_object. }
      intros t' [= <-]. unfold canonical_key. rewrite Hf. split.
      * rewrite <- (length_insert h q
           (with_Condition (zanzana.merge_condition (Condition tq) (Condition t)) tq)).
        apply lookup_fresh.
      * rewrite lookup2_ensure_object, Hq. by eexists.
    + eexists _, _. split; [done|]. split.
      { intros o k q'. rewrite lookup2_put_ensure, length_app. simpl.
        case_decide; [intros [= <-]; lia|]. intros Hq'. apply Hall in Hq'. lia. }
      split; [rewrite length_app; simpl; lia|]. split.
      { intros q' cell Hcell. exists cell. split; [by apply lookup_app_l_Some|done]. }
      split.
      { intros o k. rewrite lookup2_put_ensure. case_decide; [by eexists|done]. }
      intros t' [= <-]. unfold canonical_key. rewrite Hf.
      split; [apply lookup_fresh|].
      rewrite lookup2_put_ensure, decide_True by done. by eexists.
  - eexists _, _. split; [done|]. split.
    { intros o k q'. rewrite lookup2_file2, length_app. simpl.
      case_decide; [intros [= <-]; lia|]. intros Hq'. apply Hall in Hq'. lia. }
    split; [rewrite length_app; simpl; lia|]. split.
    { intros q' cell Hcell. exists cell. split; [by apply lookup_app_l_Some|done]. }
    split.
    { intros o k. rewrite lookup2_file2. case_decide; [by eexists|done]. }
    intros t' [= <-]. unfold canonical_key. rewrite Hf.
    split; [apply lookup_fresh|].
    rewrite lookup2_file2, decide_True by done. by eexists.
Qed.

Lemma range_managed_grows (rows : list Permission.t) :
  forall (tuples : TupleMap) (h : Heap),
    allocated tuples h ->
    exists (tuples' : TupleMap) (h' : Heap),
      range rows managed_body tuples h = Ret (tuples', h') /\
      allocated tuples' h' /\
      List.length h' = List.length h + List.length (omap translated rows) /\
      (forall q cell, h !! q = Some cell ->
         exists cell', h' !! q = Some cell' /\
           with_Condition None cell' = with_Condition None cell) /\
      (forall o k, is_Some (lookup2 o k tuples) -> is_Some (lookup2 o k tuples')).
Proof.
  induction rows as [|p rows IH]; intros tuples h Hall.
  - exists tuples, h. split; [done|]. split; [done|]. split; [simpl; lia|].
    split; [intros q cell Hq; by exists cell|done].
  - destruct (managed_body_grows p tuples h Hall)
      as (tuples1 & h1 & Hrun1 & Hall1 & Hlen1 & Hkeep1 & Hmono1 & _).
    destruct (IH tuples1 h1 Hall1) as (tuples' & h' & Hrun & Hall' & Hlen & Hkeep & Hmono).
    exists tuples', h'. cbn [range]. rewrite (bind_run _ _ _ _ _ Hrun1).
    split; [done|]. split; [done|]. split.
    { rewrite Hlen, Hlen1. cbn [omap list_omap].
      destruct (translated p); simpl; lia. }
    split.
    + intros q cell Hq. destruct (Hkeep1 q cell Hq) as (cell1 & Hq1 & Heq1).
      destruct (Hkeep q cell1 Hq1) as (cell' & Hq' & Heq').
      exists cell'. split; [done|congruence].
    + intros o k Hin. by apply Hmono, Hmono1.
Qed.

(** C8: take any row [p] of the managed permissions of a store, with the
    rows [pre] before it and [post] after it, and a second store that has
    the rows [pre] and [post] only.  The collector returns a map and no
    error.  The subject it passes to the translation is the user entry when
    the row has a user uid, otherwise the team entry with the "member"
    sub-relation when it has a team uid.  With neither, and when that
    subject with the action, kind and identifier of the row does not
    translate, the collector returns for the first store what it returns for
    the second: the same map, the same heap, no error.  When it translates
    to [t], the cell allocated for the row (after one cell for each row of
    [pre] that translates) holds the subject, relation and object of [t],
    and the map has an entry under the object and key of [t]. *)
Theorem managedPermissionsCollector_subject_and_drops
    store store' kind (pre : list Permission.t) p post (h : Heap) :
  db.find_permissions store kind = (pre ++ p :: post, None) ->
  db.find_permissions store' kind = (pre ++ post, None) ->
  exists (tuples : TupleMap) (h' : Heap),
    managedPermissionsCollector store kind h = Ret ((Some tuples, None), h') /\
    match
      (if decide (Permission.UserUID p <> "") then
         Some (zanzana.NewTupleEntry zanzana.TypeUser (Permission.UserUID p) "")
       else if decide (Permission.TeamUID p <> "") then
         Some (zanzana.NewTupleEntry zanzana.TypeTeam (Permission.TeamUID p) "member")
       else None)
    with
    | None => managedPermissionsCollector store' kind h = Ret ((Some tuples, None), h')
    | Some subject =>
        match TranslateToResourceTuple subject (Permission.Action p)
                (Permission.Kind p) (Permission.Identifier p) with
        | None => managedPermissionsCollector store' kind h = Ret ((Some tuples, None), h')
        | Some t =>
            exists cell,
              h' !! (List.length h + List.length (omap translated pre)) = Some cell /\
              User cell = User t /\
              Relation cell = Relation t /\
              openfgav1.Object cell = openfgav1.Object t /\
              is_Some (lookup2 (openfgav1.Object t) (canonical_key t) tuples)
        end
    end.
Proof.
  intros Hq Hq'.
  destruct (range_managed_grows pre ∅ h (allocated_empty h))
    as (tuples0 & h0 & Hrun0 & Hall0 & Hlen0 & _ & _).
  destruct (managed_body_grows p tuples0 h0 Hall0)
    as (tuples1 & h1 & Hrun1 & Hall1 & _ & _ & _ & Hnew).
  destruct (range_managed_grows post tuples1 h1 Hall1)
    as (tuples & h' & Hrun & _ & _ & Hkeep & Hmono).
  exists tuples, h'. split.
  { unfold managedPermissionsCollector. rewrite Hq.
    unfold bind at 1. rewrite range_app. rewrite (bind_run _ _ _ _ _ Hrun0).
    cbn [range]. rewrite (bind_run _ _ _ _ _ Hrun1). by rewrite Hrun. }
  assert (Hdrop : translated p = None ->
            managedPermissionsCollector store' kind h = Ret ((Some tuples, None), h')).
  { intros Htr. unfold managedPermissionsCollector. rewrite Hq'.
    unfold bind at 1. rewrite range_app. rewrite (bind_run _ _ _ _ _ Hrun0).
    rewrite (managed_body_skip p tuples0 h0 Htr) in Hrun1. injection Hrun1 as <- <-.
    by rewrite Hrun. }
  rewrite <- subject_of_cases. unfold translated in Hdrop, Hnew.
  destruct (subject_of p) as [subject|]; [|by apply Hdrop].
  destruct (TranslateToResourceTuple subject _ _ _) as [t|]; [|by apply Hdrop].
  destruct (Hnew t eq_refl) as [Hcell Hin].
  destruct (Hkeep _ _ Hcell) as (cell & Hcell' & Heq).
  exists cell. rewrite <- Hlen0. split; [done|].
  injection Heq as Hu Hr Ho. repeat split; try done. by apply Hmono.
Qed.

(** X6: when every row that translates gives a folder-resource tuple, an
    entry of the map of [managedPermissionsCollector] stands under the object
    and the string without condition of a translated tuple, and points to the
    first tuple with that object and string.  The cell it points to holds
    that first tuple with the conditions of the later tuples of the same
    object and string merged into its own, in the order of the rows.  A
    translated tuple whose cell has no entry is held as it was translated,
    and the cells of the heap before the call are untouched.  The call adds
    one cell for each translated row. *)
Theorem managedPermissionsCollector_folder_rows
    store kind (rows : list Permission.t) (h : Heap) :
  db.find_permissions store kind = (rows, None) ->
  (forall p t, p ∈ rows -> translated p = Some t -> IsFolderResourceTuple t = true) ->
  exists (tuples : TupleMap) (h' : Heap),
    managedPermissionsCollector store kind h = Ret ((Some tuples, None), h') /\
    List.length h' = List.length h + List.length (omap translated rows) /\
    (forall o k q,
       lookup2 o k tuples = Some q
       <-> first_with_key stripped_key2 (List.length h) (omap translated rows) (o, k) q) /\
    (forall o k q,
       lookup2 o k tuples = Some q ->
       exists m0 ms,
         filter (merges_under (o, k)) (omap translated rows) = m0 :: ms /\
         h' !! q
         = Some (with_Condition
                   (foldl zanzana.merge_condition (Condition m0) (Condition <$> ms)) m0)) /\
    (forall i t,
       omap translated rows !! i = Some t ->
       (forall o k, lookup2 o k tuples <> Some (List.length h + i)) ->
       h' !! (List.length h + i) = Some t) /\
    (forall q cell, h !! q = Some cell -> h' !! q = Some cell).
Proof.
  intros Hq Hfolder.
  destruct (range_managed_folder rows Hfolder ∅ h (allocated_empty h))
    as (h' & Hrun & Hlen).
  set (tuples := file_all file_first2 (List.length h) (omap translated rows) ∅) in *.
  assert (Hplain : forall K p t, p ∈ rows -> translated p = Some t ->
            IsFolderResourceTuple t = false -> key2 t <> K).
  { intros K p t Hp Htr Hf. rewrite (Hfolder p t Hp Htr) in Hf. discriminate. }
  assert (Hkey : forall K,
    (match filter (merges_under K) (omap translated rows) with
     | [] => lookup2 K.1 K.2 tuples = None
     | m0 :: ms =>
         exists i, lookup2 K.1 K.2 tuples = Some (List.length h + i) /\
                   h' !! (List.length h + i) = Some (merged m0 ms)
     end) /\
    (forall q cell, h !! q = Some cell -> h' !! q = Some cell) /\
    (forall i t, omap translated rows !! i = Some t -> merges_under K t ->
       lookup2 K.1 K.2 tuples <> Some (List.length h + i) ->
       h' !! (List.length h + i) = Some t)).
  { intros K.
    destruct (range_managed_key K rows (Hplain K) ∅ h (key_kept_empty K h))
      as (tuples1 & h1 & Hrun1 & _ & _ & Hunf & _ & Hfirst & Hlater).
    rewrite Hrun in Hrun1. injection Hrun1 as <- <-.
    specialize (Hfirst (lookup2_empty _ _)). split; [|split].
    - destruct (filter (merges_under K) (omap translated rows)) as [|m0 ms]; [done|].
      destruct Hfirst as (i & _ & _ & HK & Hcell). by exists i.
    - intros q cell Hcell. apply (Hunf q cell Hcell).
      intros o k. by rewrite lookup2_empty.
    - intros i t Hi Hon Hne. by apply (Hlater i t Hi Hon Hne). }
  exists tuples, h'. split; [|split; [exact Hlen|split; [|split; [|split]]]].
  - unfold managedPermissionsCollector. rewrite Hq.
    by rewrite (bind_run _ _ _ _ _ Hrun).
  - intros o k q.
    pose proof (get_file_all_first stripped_key2 file_first2
                  (fun ok (m : TupleMap) => lookup2 ok.1 ok.2 m)) as Hget.
    assert (Hins : forall (ok : string * string) t p (m : TupleMap),
      lookup2 ok.1 ok.2 (file_first2 t p m)
      = match lookup2 ok.1 ok.2 m with
        | Some q => Some q
        | None => if decide (ok = stripped_key2 t) then Some p else None
        end).
    { intros [o' k'] t p m. apply lookup2_file_first2. }
    specialize (Hget Hins (omap translated rows) (List.length h) ∅ (o, k) q).
    simpl in Hget. unfold tuples. rewrite Hget, lookup2_empty.
    split; [intros [Hl|[_ Hf]]; [discriminate|done]|by right].
  - intros o k q Hentry. destruct (Hkey (o, k)) as (Hfirst & _ & _).
    simpl in Hfirst.
    destruct (filter (merges_under (o, k)) (omap translated rows)) as [|m0 ms].
    { rewrite Hfirst in Hentry. discriminate. }
    destruct Hfirst as (i & HK & Hcell). rewrite HK in Hentry. injection Hentry as <-.
    by exists m0, ms.
  - intros i t Hi Hnone.
    assert (Hon : merges_under (stripped_key2 t) t).
    { split; [|done].
      assert (Hin : t ∈ omap translated rows) by (apply list_elem_of_lookup; by exists i).
      apply list_elem_of_omap in Hin as (p & Hp & Htr). by apply (Hfolder p t). }
    destruct (Hkey (stripped_key2 t)) as (_ & _ & Hlater).
    apply (Hlater i t Hi Hon). apply Hnone.
  - destruct (Hkey ("", "")) as (_ & Hold & _). exact Hold.
Qed.

End CollectorProofs.

(** ** Runs in the concrete environment *)

Example teamMembershipCollector_sample :
  teamMembershipCollector (Ext := sample.externals) (sample.store []) []
  = Ret ((Some {[ "team:t1" := {[ "team:t1#team-admin@user:u1" := 0;
                                  "team:t1#team-member@user:u2" := 1 ]} ]}, None),
         [ {| User := "user:u1"; Relation := "team-admin"; Object := "team:t1";
              Condition := None |};
           {| User := "user:u2"; Relation := "team-member"; Object := "team:t1";
              Condition := None |} ]).
Proof. vm_compute. reflexivity. Qed.

Example folderTreeCollector_sample :
  folderTreeCollector (Ext := sample.externals) (sample.store []) []
  = Ret ((Some {[ "folder:f2" := {[ "folder:f2#parent@folder:f1" := 0 ]} ]}, None),
         [ {| User := "folder:f1"; Relation := "parent"; Object := "folder:f2";
              Condition := None |} ]).
Proof. vm_compute. reflexivity. Qed.

(** A mirror run in which the later of two folder-resource tuples with the
    same string without condition takes the entry, with its own condition. *)
Example zanzanaCollector_sample :
  zanzanaCollector (Cl := sample.scripted) 5 ["resource_view"] "folder:f1" "default"
    ([sample.page_1; sample.page_2], [])
  = Ret ((Some {[ "folder:f1#resource_view@user:u1" := 1 ]}, None),
         ([], [sample.view_f1_dashboards; sample.view_f1_rules])).
Proof. vm_compute. reflexivity. Qed.

(** A client that answers by the token of the request, as a paginated
    service does, keeps [list] reading the first page: no budget is enough. *)
Lemma list_loop_stubborn fuel : forall first_Tuples (h : Heap),
  list_loop (Cl := sample.stubborn) fuel "default" "folder:f1" "resource_view"
    "next" first_Tuples (tt, h) = OutOfFuel (tt, h).
Proof.
  induction fuel as [|fuel IH]; intros first_Tuples h; [done|].
  cbn [list_loop]. rewrite decide_False by done.
  rewrite (bind_run _ _ _ (inl (authzextv1.ReadResponse.mk [] "next")) (tt, h)) by done.
  apply IH.
Qed.

Lemma list_stubborn fuel (h : Heap) :
  list_ (Cl := sample.stubborn) fuel "default" "folder:f1" "resource_view" (tt, h)
  = OutOfFuel (tt, h).
Proof.
  unfold list_.
  rewrite (bind_run _ _ _ (inl (authzextv1.ReadResponse.mk [] "next")) (tt, h)) by done.
  unfold bind. cbn [authzextv1.ReadResponse.ContinuationToken authzextv1.ReadResponse.Tuples].
  by rewrite list_loop_stubborn.
Qed.

(** C3: against a client that answers the first read with the continuation
    token "page-2", the log of the reads of [zanzanaCollector] shows a second
    request equal to the first: its continuation token is empty, not the
    token of the response before it. *)
Theorem zanzanaCollector_follow_up_without_token :
  zanzanaCollector (Cl := logged sample.scripted) 5 ["resource_view"]
    "folder:f1" "default" (([sample.page_1; sample.page_2], []), [])
  = Ret ((Some {[ "folder:f1#resource_view@user:u1" := 1 ]}, None),
         (([], [(sample.request_view_f1, sample.page_1);
                (sample.request_view_f1, sample.page_2)]),
          [sample.view_f1_dashboards; sample.view_f1_rules])) /\
  sample.page_1 = inl (authzextv1.ReadResponse.mk [sample.view_f1_dashboards] "page-2") /\
  authzextv1.ReadRequest.ContinuationToken sample.request_view_f1 = "".
Proof. split; [vm_compute; reflexivity|]. by split. Qed.

(** ** The theorems at concrete inputs *)

Lemma tupleStringWithoutCondition_frame_witness :
  tupleStringWithoutCondition (Ext := sample.externals) 1
    [sample.view_f1_rules; sample.view_f1_dashboards]
  = Ret ("folder:f1#resource_view@user:u1",
         [sample.view_f1_rules; sample.view_f1_dashboards]).
Proof.
  apply (tupleStringWithoutCondition_frame (Ext := sample.externals)
           [sample.view_f1_rules; sample.view_f1_dashboards] 1 sample.view_f1_dashboards).
  reflexivity.
Defined.

Lemma managedPermissionsCollector_merges_folder_grants_witness :
  exists (tuples : TupleMap) (h' : Heap),
    managedPermissionsCollector (Ext := sample.externals)
      (sample.store [sample.row_unsupported; sample.row_dashboards;
                     sample.row_folder_read; sample.row_org_role;
                     sample.row_rules; sample.row_folder_read]) "folders" []
    = Ret ((Some tuples, None), h') /\
    lookup2 "folder:f1" "folder:f1#resource_view@user:u1" tuples = Some 0 /\
    h' !! 0 = Some {| User := "user:u1"; Relation := "resource_view";
                      Object := "folder:f1";
                      Condition := Some (mkCondition {["dashboards"; "rules"]}) |} /\
    h' !! 2 = Some sample.view_f1_rules /\
    forall o k, lookup2 o k tuples <> Some 2.
Proof.
  destruct (managedPermissionsCollector_merges_folder_grants (Ext := sample.externals)
              (sample.store [sample.row_unsupported; sample.row_dashboards;
                             sample.row_folder_read; sample.row_org_role;
                             sample.row_rules; sample.row_folder_read]) "folders"
              [sample.row_unsupported] sample.row_dashboards
              [sample.row_folder_read; sample.row_org_role] sample.row_rules
              [sample.row_folder_read]
              sample.view_f1_dashboards sample.view_f1_rules "dashboards" "rules" [])
    as (tuples & h' & q & cell & c & Hrun & HK & _ & Hcell & _ & _ & _ & _ & _ & _
        & Hcell2 & Hunf2 & Hexact); try reflexivity.
  - intros p t' Hp. simpl in Hp.
    repeat (apply elem_of_cons in Hp as [->|Hp]); try (by apply elem_of_nil in Hp);
      intros [= <-]; try discriminate; intros _; discriminate.
  - destruct Hexact as [-> ->].
    + intros p t' Hp. simpl in Hp.
      repeat (apply elem_of_cons in Hp as [->|Hp]); try (by apply elem_of_nil in Hp);
        intros [= <-]; discriminate.
    + exists tuples, h'. repeat split; assumption.
Defined.

Lemma managedPermissionsCollector_subject_and_drops_witness :
  (exists (tuples : TupleMap) (h' : Heap),
     managedPermissionsCollector (Ext := sample.externals)
       (sample.store [sample.row_dashboards; sample.row_org_role; sample.row_rules])
       "folders" []
     = Ret ((Some tuples, None), h') /\
     managedPermissionsCollector (Ext := sample.externals)
       (sample.store [sample.row_dashboards; sample.row_rules]) "folders" []
     = Ret ((Some tuples, None), h')) /\
  (exists (tuples : TupleMap) (h' : Heap),
     managedPermissionsCollector (Ext := sample.externals)
       (sample.store [sample.row_dashboards; sample.row_unsupported; sample.row_rules])
       "folders" []
     = Ret ((Some tuples, None), h') /\
     managedPermissionsCollector (Ext := sample.externals)
       (sample.store [sample.row_dashboards; sample.row_rules]) "folders" []
     = Ret ((Some tuples, None), h')) /\
  (exists (tuples : TupleMap) (h' : Heap) (cell : TupleKey),
     managedPermissionsCollector (Ext := sample.externals)
       (sample.store [sample.row_org_role; sample.row_folder_read;
                      sample.row_user_and_team; sample.row_dashboards])
       "folders" []
     = Ret ((Some tuples, None), h') /\
     h' !! 1 = Some cell /\
     User cell = "user:u1" /\
     Relation cell = "resource_view" /\
     openfgav1.Object cell = "folder:f1" /\
     is_Some (lookup2 "folder:f1" "folder:f1#resource_view@user:u1" tuples)).
Proof.
  split; [|split].
  - destruct (managedPermissionsCollector_subject_and_drops (Ext := sample.externals)
                (sample.store [sample.row_dashboards; sample.row_org_role;
                               sample.row_rules])
                (sample.store [sample.row_dashboards; sample.row_rules]) "folders"
                [sample.row_dashboards] sample.row_org_role [sample.row_rules] []
                eq_refl eq_refl) as (tuples & h' & Hrun & Hcase).
    exists tuples, h'. split; [exact Hrun|exact Hcase].
  - destruct (managedPermissionsCollector_subject_and_drops (Ext := sample.externals)
                (sample.store [sample.row_dashboards; sample.row_unsupported;
                               sample.row_rules])
                (sample.store [sample.row_dashboards; sample.row_rules]) "folders"
                [sample.row_dashboards] sample.row_unsupported [sample.row_rules] []
                eq_refl eq_refl) as (tuples & h' & Hrun & Hcase).
    exists tuples, h'. split; [exact Hrun|exact Hcase].
  - destruct (managedPermissionsCollector_subject_and_drops (Ext := sample.externals)
                (sample.store [sample.row_org_role; sample.row_folder_read;
                               sample.row_user_and_team; sample.row_dashboards])
                (sample.store [sample.row_org_role; sample.row_folder_read;
                               sample.row_dashboards]) "folders"
                [sample.row_org_role; sample.row_folder_read] sample.row_user_and_team
                [sample.row_dashboards] []
                eq_refl eq_refl) as (tuples & h' & Hrun & cell & Hcase).
    exists tuples, h', cell. split; [exact Hrun|exact Hcase].
Defined.

Lemma zanzanaCollector_two_pages_witness :
  list_ (Cl := sample.scripted) 1 "default" "folder:f1" "resource_view"
    ([sample.page_1; sample.page_2], [])
  = Ret (inl [0; 1], ([], [sample.view_f1_dashboards; sample.view_f1_rules])).
Proof.
  apply (proj1 (zanzanaCollector_two_pages (Cl := sample.scripted)
                  "default" "folder:f1" "resource_view"
                  [sample.page_1; sample.page_2] [sample.view_f1_dashboards] "page-2"
                  [sample.page_2] [sample.view_f1_rules] [] 0 []
                  eq_refl ltac:(discriminate) eq_refl)).
Defined.

Lemma reads_sample :
  reads_until_empty (Cl := sample.scripted) sample.request_view_f1
    [sample.page_1; sample.page_2]
    [[sample.view_f1_dashboards]; [sample.view_f1_rules]] [].
Proof.
  apply (reads_more (Cl := sample.scripted) sample.request_view_f1
           [sample.page_1; sample.page_2]
           (authzextv1.ReadResponse.mk [sample.view_f1_dashboards] "page-2")
           [sample.page_2] [[sample.view_f1_rules]] []); [reflexivity|discriminate|].
  apply (reads_last (Cl := sample.scripted) sample.request_view_f1 [sample.page_2]
           (authzextv1.ReadResponse.mk [sample.view_f1_rules] "") []); reflexivity.
Defined.

Lemma list_terminates_witness :
  list_ (Cl := sample.scripted) 1 "default" "folder:f1" "resource_view"
    ([sample.page_1; sample.page_2], [sample.view_f1_rules])
  = Ret (inl [1; 2],
         ([], [sample.view_f1_rules; sample.view_f1_dashboards; sample.view_f1_rules])).
Proof.
  apply (list_terminates (Cl := sample.scripted) "default" "folder:f1" "resource_view"
           [sample.page_1; sample.page_2]
           [[sample.view_f1_dashboards]; [sample.view_f1_rules]] [] 1
           [sample.view_f1_rules] reads_sample).
  simpl. lia.
Defined.

Lemma zanzanaCollector_flat_map_witness :
  exists out : gmap string loc,
    zanzanaCollector (Cl := sample.scripted) 1 ["resource_view"] "folder:f1" "default"
      ([sample.page_1; sample.page_2], [])
    = Ret ((Some out, None), ([], [sample.view_f1_dashboards; sample.view_f1_rules])) /\
    forall k p,
      out !! k = Some p
      <-> last_with_key (canonical_key (Ext := sample.externals)) 0
            [sample.view_f1_dashboards; sample.view_f1_rules] k p.
Proof.
  apply (proj2 (zanzanaCollector_flat_map (Cl := sample.scripted)
                  "default" "folder:f1" ["resource_view"]
                  [sample.page_1; sample.page_2]
                  [[[sample.view_f1_dashboards]; [sample.view_f1_rules]]] [] 1 []
                  (relations_read_cons _ _ _ _ _ _ _ _ _ reads_sample
                     (relations_read_nil _ _ _))
                  ltac:(apply Forall_singleton; simpl; lia))).
Defined.

Lemma collectors_nil_on_error_witness :
  teamMembershipCollector (Ext := sample.externals) sample.broken_store []
  = Ret ((None, Some "connection refused"), []) /\
  managedPermissionsCollector (Ext := sample.externals) sample.broken_store "folders" []
  = Ret ((None, Some "connection refused"), []).
Proof.
  pose proof (collectors_nil_on_error (Ext := sample.externals) (Cl := sample.scripted))
    as (Hteam & _ & Hmanaged & _).
  split; [eapply Hteam|eapply Hmanaged]; reflexivity.
Defined.

Lemma managedPermissionsCollector_frame_witness :
  exists (tuples : TupleMap) (ts : list TupleKey),
    managedPermissionsCollector (Ext := sample.externals)
      (sample.store [sample.row_dashboards; sample.row_org_role; sample.row_rules])
      "folders" [sample.view_f1_rules]
    = Ret ((Some tuples, None), [sample.view_f1_rules] ++ ts) /\
    List.length ts = 2 /\
    forall o k q, lookup2 o k tuples = Some q -> 1 <= q < 1 + List.length ts.
Proof.
  apply (managedPermissionsCollector_frame (Ext := sample.externals)
           (sample.store [sample.row_dashboards; sample.row_org_role; sample.row_rules])
           "folders" [sample.row_dashboards; sample.row_org_role; sample.row_rules]
           [sample.view_f1_rules] eq_refl).
Defined.

Lemma managedPermissionsCollector_objects_witness :
  exists (tuples : TupleMap) (h' : Heap),
    managedPermissionsCollector (Ext := sample.externals)
      (sample.store [sample.row_dashboards; sample.row_folder_read; sample.row_rules])
      "folders" []
    = Ret ((Some tuples, None), h') /\
    (forall o k q, lookup2 o k tuples = Some q ->
       exists t, h' !! q = Some t /\ openfgav1.Object t = o) /\
    (forall o inner, tuples !! o = Some inner -> inner <> ∅).
Proof.
  apply (managedPermissionsCollector_objects (Ext := sample.externals)
           (sample.store [sample.row_dashboards; sample.row_folder_read; sample.row_rules])
           "folders" [sample.row_dashboards; sample.row_folder_read; sample.row_rules]
           [] eq_refl).
Defined.

Lemma managedPermissionsCollector_plain_rows_witness :
  exists tuples : TupleMap,
    managedPermissionsCollector (Ext := sample.externals)
      (sample.store [sample.row_folder_read; sample.row_org_role]) "folders" []
    = Ret ((Some tuples, None),
           [ {| User := "user:u1"; Relation := "view"; Object := "folder:f1";
                Condition := None |} ]) /\
    forall o k q,
      lookup2 o k tuples = Some q
      <-> last_with_key (key2 (Ext := sample.externals)) 0
            [ {| User := "user:u1"; Relation := "view"; Object := "folder:f1";
                 Condition := None |} ] (o, k) q.
Proof.
  apply (managedPermissionsCollector_plain_rows (Ext := sample.externals)
           (sample.store [sample.row_folder_read; sample.row_org_role]) "folders"
           [sample.row_folder_read; sample.row_org_role] [] eq_refl).
  intros p t Hp. apply elem_of_cons in Hp as [->|Hp].
  - intros [= <-]. reflexivity.
  - apply list_elem_of_singleton in Hp as ->. discriminate.
Defined.

Lemma managedPermissionsCollector_folder_rows_witness :
  exists (tuples : TupleMap) (h' : Heap),
    managedPermissionsCollector (Ext := sample.externals)
      (sample.store [sample.row_dashboards; sample.row_org_role; sample.row_rules])
      "folders" []
    = Ret ((Some tuples, None), h') /\
    List.length h' = 2 /\
    lookup2 "folder:f1" "folder:f1#resource_view@user:u1" tuples = Some 0 /\
    h' !! 0 = Some {| User := "user:u1"; Relation := "resource_view";
                      Object := "folder:f1";
                      Condition := Some (mkCondition {["dashboards"; "rules"]}) |} /\
    h' !! 1 = Some sample.view_f1_rules.
Proof.
  destruct (managedPermissionsCollector_folder_rows (Ext := sample.externals)
              (sample.store [sample.row_dashboards; sample.row_org_role;
                             sample.row_rules]) "folders"
              [sample.row_dashboards; sample.row_org_role; sample.row_rules] [] eq_refl)
    as (tuples & h' & Hrun & Hlen & Hentry & Hcell & Hfree & _).
  { intros p t Hp. repeat (apply elem_of_cons in Hp as [->|Hp]);
      try (by apply elem_of_nil in Hp); intros [= <-]; reflexivity. }
  assert (H0 : lookup2 "folder:f1" "folder:f1#resource_view@user:u1" tuples = Some 0).
  { apply Hentry. exists 0, sample.view_f1_dashboards.
    split; [done|]. split; [done|]. split; [done|]. intros j t' Hj. lia. }
  exists tuples, h'. split; [exact Hrun|]. split; [exact Hlen|]. split; [exact H0|].
  split.
  - destruct (Hcell _ _ _ H0) as (m0 & ms & Hfilter & Hm).
    injection Hfilter as <- <-. exact Hm.
  - apply (Hfree 1 sample.view_f1_rules eq_refl).
    intros o k Hk. apply Hentry in Hk as (i & t & Hi & Ht & Hkey & Hfirst).
    destruct i as [|[|i]]; simpl in Hi, Ht; [lia| |lia].
    injection Ht as <-.
    apply (Hfirst 0 sample.view_f1_dashboards); [lia|done|].
    by rewrite <- Hkey.
Defined.

Lemma list_never_returns_witness :
  list_ (Cl := sample.stubborn) 7 "default" "folder:f1" "resource_view" (tt, [])
  = OutOfFuel (tt, []) /\
  forall rs,
    zanzanaCollector (Cl := sample.stubborn) 7 ("resource_view" :: rs)
      "folder:f1" "default" (tt, [])
    = OutOfFuel (tt, []).
Proof.
  apply (list_never_returns (Cl := sample.stubborn) "default" "folder:f1" "resource_view"
           tt (authzextv1.ReadResponse.mk [] "next") 7 [] eq_refl).
  discriminate.
Defined.

Lemma zanzanaCollector_aborts_on_error_witness :
  zanzanaCollector (Cl := sample.scripted) 1 ["resource_view"; "view"; "edit"]
    "folder:f1" "default"
    ([sample.page_1; sample.page_2; inr "unavailable"; sample.page_2], [])
  = Ret ((None, Some "unavailable"),
         ([sample.page_2], [sample.view_f1_dashboards; sample.view_f1_rules])).
Proof.
  apply (zanzanaCollector_aborts_on_error (Cl := sample.scripted)
           "default" "folder:f1" ["resource_view"] "view" ["edit"]
           [sample.page_1; sample.page_2; inr "unavailable"; sample.page_2]
           [[[sample.view_f1_dashboards]; [sample.view_f1_rules]]]
           [inr "unavailable"; sample.page_2] 1 "unavailable" [sample.page_2] 1 []).
  - apply (relations_read_cons (Cl := sample.scripted) "default" "folder:f1"
             "resource_view" [] _
             [[sample.view_f1_dashboards]; [sample.view_f1_rules]]
             [inr "unavailable"; sample.page_2] [] _);
      [|apply relations_read_nil].
    apply (reads_more (Cl := sample.scripted) _ _
             (authzextv1.ReadResponse.mk [sample.view_f1_dashboards] "page-2")
             [sample.page_2; inr "unavailable"; sample.page_2]
             [[sample.view_f1_rules]] _); [reflexivity|discriminate|].
    apply (reads_last (Cl := sample.scripted) _ _
             (authzextv1.ReadResponse.mk [sample.view_f1_rules] "") _); reflexivity.
  - apply (reads_error_now (Cl := sample.scripted)). reflexivity.
  - apply Forall_singleton. simpl. lia.
  - lia.
Defined.

Lemma managedPermissionsCollector_keys_recomputed_witness :
  exists (tuples : TupleMap) (h' : Heap),
    managedPermissionsCollector (Ext := sample.externals)
      (sample.store [sample.row_dashboards; sample.row_rules]) "folders" []
    = Ret ((Some tuples, None), h') /\
    forall o k q, lookup2 o k tuples = Some q ->
      (exists t, h' !! q = Some t /\ openfgav1.Object t = o) /\
      tupleStringWithoutCondition (Ext := sample.externals) q h' = Ret (k, h').
Proof.
  apply (managedPermissionsCollector_keys_recomputed (Ext := sample.externals)
           (sample.store [sample.row_dashboards; sample.row_rules]) "folders"
           [sample.row_dashboards; sample.row_rules] [] eq_refl).
  intros p t Hp. apply elem_of_cons in Hp as [->|Hp].
  - intros [= <-]. reflexivity.
  - apply list_elem_of_singleton in Hp as ->. intros [= <-]. reflexivity.
Defined.
